(** * BioPassportRegistry: a shallow embedding of the on-chain registry

    The development follows [contracts/src/BioPassportRegistry.sol].
    Solidity mappings become finite maps read with the type's zero value
    as default, [uint256] and [bytes32] values are binary naturals,
    [string]/[bytes] are Rocq strings (one character per byte), a
    transaction is a function from the pre-state to either the post-state
    or the custom error it reverts with, and the EVM's rollback on revert
    is the wrapper [transact]. *)

From Stdlib Require Import NArith Lia Ascii.
From stdpp Require Import gmap strings list fin_maps.
From Equations Require Import Equations.

Local Open Scope N_scope.

(** ** Machine types *)

Abbreviation address := N (only parsing).
Abbreviation uint256 := N (only parsing).
Abbreviation bytes32 := N (only parsing).

Definition MAX_UINT256 : N := 2 ^ 256 - 1.

(** ** Custom errors, and the panic of checked arithmetic and indexing *)

Inductive Error : Set :=
| OnlyAdmin
| NotMaterialOwner
| NotAuthorizedForStatus
| MaterialNotFound
| MaterialAlreadyExists
| InvalidMaterialType
| NotApprovedIssuer
| IssuerRevoked
| NotAuthorizedForCredentialType
| CredentialNotFound
| CredentialAlreadyRevoked
| NotAuthorizedToRevoke
| InvalidCommitmentHash
| InvalidArtifactHash
| InvalidValidUntil
| MaterialNotActive
| PendingTransferExists
| NoTransfers
| NoPendingTransfer
| NotTransferRecipient
| InvalidHistoryIndex
| Panic.

Inductive Result (A : Type) : Type :=
| Ok (a : A)
| Revert (e : Error).
Arguments Ok {A} a.
Arguments Revert {A} e.

Definition bind {A B} (r : Result A) (k : A -> Result B) : Result B :=
  match r with
  | Ok a => k a
  | Revert e => Revert e
  end.

Notation "'let*' x ':=' r 'in' k" := (bind r (fun x => k))
  (at level 10, x pattern, r at level 100, k at level 200).

(** [if (c) revert e;] *)
Definition revert_if (c : bool) (e : Error) : Result unit :=
  if c then Revert e else Ok tt.

(** [n++] on a [uint256], checked since Solidity 0.8. *)
Definition checked_inc (n : uint256) : Result uint256 :=
  if n <? MAX_UINT256 then Ok (n + 1) else Revert Panic.

(** ** uint2str *)

(** First loop: [while (j != 0) { length++; j /= 10; }]. *)
Equations? count_digits (j : uint256) (length : uint256) : uint256 by wf (N.to_nat j) lt :=
  count_digits j length with N.eq_dec j 0 => {
    | left _ := length;
    | right _ := count_digits (j / 10) (length + 1) }.
Proof.
  assert (j / 10 < j) by (apply N.div_lt; lia). lia.
Qed.

(** Second loop:
    [while (_i != 0) { k = k - 1; bstr[k] = bytes1(48 + uint8(_i - _i / 10 * 10)); _i /= 10; }].
    [k - 1] is checked and the index is bounds-checked. *)
Equations? fill_digits (_i : uint256) (k : uint256) (bstr : list ascii) : Result (list ascii)
  by wf (N.to_nat _i) lt :=
  fill_digits _i k bstr with N.eq_dec _i 0 => {
    | left _ := Ok bstr;
    | right _ :=
        if k =? 0 then Revert Panic
        else if (N.to_nat (k - 1) <? List.length bstr)%nat
        then fill_digits (_i / 10) (k - 1)
               (<[N.to_nat (k - 1) := ascii_of_N (48 + (_i - _i / 10 * 10))]> bstr)
        else Revert Panic }.
Proof.
  assert (_i / 10 < _i) by (apply N.div_lt; lia). lia.
Qed.

Definition uint2str (_i : uint256) : Result string :=
  if _i =? 0 then Ok "0"%string
  else
    let length := count_digits _i 0 in
    let bstr := replicate (N.to_nat length) zero in
    let* bstr := fill_digits _i length bstr in
    Ok (String.string_of_list_ascii bstr).

(** The decimal digits of [i], most significant first; none for 0.  This is
    the numeral [uint2str] is meant to write, stated without buffers. *)
Equations? digits (i : N) : list ascii by wf (N.to_nat i) lt :=
  digits i with N.eq_dec i 0 => {
    | left _ := [];
    | right _ := digits (i / 10) ++ [ascii_of_N (48 + i mod 10)] }.
Proof.
  assert (i / 10 < i) by (apply N.div_lt; lia). lia.
Qed.

Definition decimal (i : N) : string :=
  String.string_of_list_ascii (if i =? 0 then ["0"%char] else digits i).

(** Reading a numeral back. *)
Definition digit_value (c : ascii) : N := N_of_ascii c - 48.

Definition decimal_value (l : list ascii) : N :=
  fold_left (fun acc c => acc * 10 + digit_value c) l 0.

(** ** Types *)

Inductive MaterialStatus : Set := ACTIVE | QUARANTINED | REVOKED.
Inductive CredentialType : Set := IDENTITY | QC_MYCO | USAGE_RIGHTS.

#[global] Instance MaterialStatus_eq_dec : EqDecision MaterialStatus.
Proof. solve_decision. Defined.
#[global] Instance CredentialType_eq_dec : EqDecision CredentialType.
Proof. solve_decision. Defined.
#[global] Instance Error_eq_dec : EqDecision Error.
Proof. solve_decision. Defined.

(** [uint8(status)] and [uint8(credType)]. *)
Definition status_uint8 (st : MaterialStatus) : N :=
  match st with ACTIVE => 0 | QUARANTINED => 1 | REVOKED => 2 end.
Definition credType_uint8 (ct : CredentialType) : N :=
  match ct with IDENTITY => 0 | QC_MYCO => 1 | USAGE_RIGHTS => 2 end.

(** The structs share field names, so each lives in a module of its own;
    [zero] is the value an unset mapping slot reads as. *)
Module Material.
Record t : Type := mk {
  materialId : string;
  materialType : string;
  metadataHash : bytes32;
  owner : address;
  ownerOrg : string;
  status : MaterialStatus;
  createdAt : uint256;
  updatedAt : uint256 }.
Definition zero : t := mk "" "" 0 0 "" ACTIVE 0 0.
Definition set_status (v : MaterialStatus) (m : t) : t :=
  mk (materialId m) (materialType m) (metadataHash m) (owner m) (ownerOrg m) v
     (createdAt m) (updatedAt m).
Definition set_owner (v : address) (m : t) : t :=
  mk (materialId m) (materialType m) (metadataHash m) v (ownerOrg m) (status m)
     (createdAt m) (updatedAt m).
Definition set_ownerOrg (v : string) (m : t) : t :=
  mk (materialId m) (materialType m) (metadataHash m) (owner m) v (status m)
     (createdAt m) (updatedAt m).
Definition set_updatedAt (v : uint256) (m : t) : t :=
  mk (materialId m) (materialType m) (metadataHash m) (owner m) (ownerOrg m) (status m)
     (createdAt m) v.
End Material.

Module Credential.
Record t : Type := mk {
  credentialId : string;
  materialId : string;
  credType : CredentialType;
  commitmentHash : bytes32;
  issuer : address;
  issuerId : string;
  issuedAt : uint256;
  validUntil : uint256;
  artifactCid : string;
  artifactHash : bytes32;
  revoked : bool }.
Definition zero : t := mk "" "" IDENTITY 0 0 "" 0 0 "" 0 false.
Definition set_revoked (v : bool) (c : t) : t :=
  mk (credentialId c) (materialId c) (credType c) (commitmentHash c) (issuer c)
     (issuerId c) (issuedAt c) (validUntil c) (artifactCid c) (artifactHash c) v.
End Credential.

Module Transfer.
Record t : Type := mk {
  transferId : string;
  materialId : string;
  fromAddress : address;
  fromOrg : string;
  toAddress : address;
  toOrg : string;
  shipmentHash : bytes32;
  timestamp : uint256;
  accepted : bool }.
Definition set_accepted (v : bool) (x : t) : t :=
  mk (transferId x) (materialId x) (fromAddress x) (fromOrg x) (toAddress x) (toOrg x)
     (shipmentHash x) (timestamp x) v.
End Transfer.

Module IssuerPermission.
Record t : Type := mk {
  isApproved : bool;
  canIssueIdentity : bool;
  canIssueQC : bool;
  canIssueUsageRights : bool }.
Definition zero : t := mk false false false false.
Definition set_isApproved (v : bool) (p : t) : t :=
  mk v (canIssueIdentity p) (canIssueQC p) (canIssueUsageRights p).
End IssuerPermission.

(** ** Contract storage *)

Record State : Type := mkState {
  admin : address;
  materialCount : uint256;
  credentialCount : uint256;
  transferCount : uint256;
  materials : gmap string Material.t;
  materialExists : gmap string bool;
  materialCredentials : gmap string (list string);
  credentials : gmap string Credential.t;
  materialTransfers : gmap string (list Transfer.t);
  issuerPermissions : gmap N IssuerPermission.t;
  issuerRevokedAt : gmap N N;
  materialHistory : gmap string (list N) }.

Definition set_materialCount (v : uint256) (s : State) : State :=
  mkState (admin s) v (credentialCount s) (transferCount s) (materials s)
    (materialExists s) (materialCredentials s) (credentials s) (materialTransfers s)
    (issuerPermissions s) (issuerRevokedAt s) (materialHistory s).
Definition set_credentialCount (v : uint256) (s : State) : State :=
  mkState (admin s) (materialCount s) v (transferCount s) (materials s)
    (materialExists s) (materialCredentials s) (credentials s) (materialTransfers s)
    (issuerPermissions s) (issuerRevokedAt s) (materialHistory s).
Definition set_transferCount (v : uint256) (s : State) : State :=
  mkState (admin s) (materialCount s) (credentialCount s) v (materials s)
    (materialExists s) (materialCredentials s) (credentials s) (materialTransfers s)
    (issuerPermissions s) (issuerRevokedAt s) (materialHistory s).
Definition set_materials (v : gmap string Material.t) (s : State) : State :=
  mkState (admin s) (materialCount s) (credentialCount s) (transferCount s) v
    (materialExists s) (materialCredentials s) (credentials s) (materialTransfers s)
    (issuerPermissions s) (issuerRevokedAt s) (materialHistory s).
Definition set_materialExists (v : gmap string bool) (s : State) : State :=
  mkState (admin s) (materialCount s) (credentialCount s) (transferCount s) (materials s)
    v (materialCredentials s) (credentials s) (materialTransfers s)
    (issuerPermissions s) (issuerRevokedAt s) (materialHistory s).
Definition set_materialCredentials (v : gmap string (list string)) (s : State) : State :=
  mkState (admin s) (materialCount s) (credentialCount s) (transferCount s) (materials s)
    (materialExists s) v (credentials s) (materialTransfers s)
    (issuerPermissions s) (issuerRevokedAt s) (materialHistory s).
Definition set_credentials (v : gmap string Credential.t) (s : State) : State :=
  mkState (admin s) (materialCount s) (credentialCount s) (transferCount s) (materials s)
    (materialExists s) (materialCredentials s) v (materialTransfers s)
    (issuerPermissions s) (issuerRevokedAt s) (materialHistory s).
Definition set_materialTransfers (v : gmap string (list Transfer.t)) (s : State) : State :=
  mkState (admin s) (materialCount s) (credentialCount s) (transferCount s) (materials s)
    (materialExists s) (materialCredentials s) (credentials s) v
    (issuerPermissions s) (issuerRevokedAt s) (materialHistory s).
Definition set_issuerPermissions (v : gmap N IssuerPermission.t) (s : State) : State :=
  mkState (admin s) (materialCount s) (credentialCount s) (transferCount s) (materials s)
    (materialExists s) (materialCredentials s) (credentials s) (materialTransfers s)
    v (issuerRevokedAt s) (materialHistory s).
Definition set_issuerRevokedAt (v : gmap N N) (s : State) : State :=
  mkState (admin s) (materialCount s) (credentialCount s) (transferCount s) (materials s)
    (materialExists s) (materialCredentials s) (credentials s) (materialTransfers s)
    (issuerPermissions s) v (materialHistory s).
Definition set_materialHistory (v : gmap string (list N)) (s : State) : State :=
  mkState (admin s) (materialCount s) (credentialCount s) (transferCount s) (materials s)
    (materialExists s) (materialCredentials s) (credentials s) (materialTransfers s)
    (issuerPermissions s) (issuerRevokedAt s) v.

(** Reading a mapping slot: [m[k]], the zero value where nothing was written. *)
Definition materials_at (s : State) (k : string) : Material.t :=
  default Material.zero (materials s !! k).
Definition materialExists_at (s : State) (k : string) : bool :=
  default false (materialExists s !! k).
Definition materialCredentials_at (s : State) (k : string) : list string :=
  default [] (materialCredentials s !! k).
Definition credentials_at (s : State) (k : string) : Credential.t :=
  default Credential.zero (credentials s !! k).
Definition materialTransfers_at (s : State) (k : string) : list Transfer.t :=
  default [] (materialTransfers s !! k).
Definition issuerPermissions_at (s : State) (k : address) : IssuerPermission.t :=
  default IssuerPermission.zero (issuerPermissions s !! k).
Definition issuerRevokedAt_at (s : State) (k : address) : uint256 :=
  default 0 (issuerRevokedAt s !! k).
Definition materialHistory_at (s : State) (k : string) : list bytes32 :=
  default [] (materialHistory s !! k).

(** [materialHistory[id].push(h)] *)
Definition push_history (id : string) (h : bytes32) (s : State) : State :=
  set_materialHistory (<[id := materialHistory_at s id ++ [h]]> (materialHistory s)) s.

(** ** abi.encodePacked *)

(** A fixed-width value on [n] bytes, most significant byte first. *)
Fixpoint be_bytes (n : nat) (v : N) : string :=
  match n with
  | O => ""
  | S n' => be_bytes n' (v / 256) +:+ String (ascii_of_N (v mod 256)) ""
  end.

Definition packed_address (a : address) : string := be_bytes 20 a.
Definition packed_uint256 (v : uint256) : string := be_bytes 32 v.
Definition packed_bytes32 (v : bytes32) : string := be_bytes 32 v.
Definition packed_uint8 (v : N) : string := be_bytes 1 v.

(** ** Modifiers *)

Definition onlyAdmin (msg_sender : address) (s : State) : Result unit :=
  revert_if (negb (msg_sender =? admin s)) OnlyAdmin.

Definition onlyMaterialOwner (msg_sender : address) (materialId : string) (s : State)
  : Result unit :=
  let* _ := revert_if (negb (materialExists_at s materialId)) MaterialNotFound in
  revert_if (negb (Material.owner (materials_at s materialId) =? msg_sender)) NotMaterialOwner.

Definition onlyApprovedIssuer (msg_sender : address) (s : State) : Result unit :=
  let* _ := revert_if (negb (IssuerPermission.isApproved (issuerPermissions_at s msg_sender)))
              NotApprovedIssuer in
  revert_if (negb (issuerRevokedAt_at s msg_sender =? 0)) IssuerRevoked.

Definition materialMustExist (materialId : string) (s : State) : Result unit :=
  revert_if (negb (materialExists_at s materialId)) MaterialNotFound.

(** ** Constructor *)

Definition constructor (msg_sender : address) : State :=
  mkState msg_sender 0 0 0 ∅ ∅ ∅ ∅ ∅
    {[ msg_sender := IssuerPermission.mk true true true true ]} ∅ ∅.

(** ** Verification (view functions) *)

(** The locals the credential loop of [_verifyMaterialAt] carries. *)
Record Scan : Type := mkScan {
  hasIdentity : bool;
  latestQcIssuedAt : uint256;
  latestQcValidUntil : uint256;
  latestQcFromRevokedIssuer : bool }.

Definition issuerWasRevokedBeforeIssuance (s : State) (cred : Credential.t) : bool :=
  let issuerRevokeTime := issuerRevokedAt_at s (Credential.issuer cred) in
  negb (issuerRevokeTime =? 0) && (issuerRevokeTime <=? Credential.issuedAt cred).

(** One iteration of [for (uint i = 0; i < credIds.length; i++)]. *)
Definition scan_credential (s : State) (acc : Scan) (credId : string) : Scan :=
  let cred := credentials_at s credId in
  let revokedBefore := issuerWasRevokedBeforeIssuance s cred in
  let acc :=
    if bool_decide (Credential.credType cred = IDENTITY)
       && negb (Credential.revoked cred) && negb revokedBefore
    then mkScan true (latestQcIssuedAt acc) (latestQcValidUntil acc)
           (latestQcFromRevokedIssuer acc)
    else acc in
  if bool_decide (Credential.credType cred = QC_MYCO) && negb (Credential.revoked cred)
  then
    if latestQcIssuedAt acc <? Credential.issuedAt cred
    then mkScan (hasIdentity acc) (Credential.issuedAt cred) (Credential.validUntil cred)
           revokedBefore
    else acc
  else acc.

Definition scan_credentials (s : State) (credIds : list string) : Scan :=
  fold_left (scan_credential s) credIds (mkScan false 0 0 false).

Definition _verifyMaterialAt (materialId : string) (atTime : uint256) (s : State)
  : bool * list string :=
  let mat := materials_at s materialId in
  (* Check 1: material status *)
  let reasons1 :=
    match Material.status mat with
    | REVOKED => ["MATERIAL_REVOKED"%string]
    | QUARANTINED => ["MATERIAL_QUARANTINED"%string]
    | ACTIVE => []
    end in
  (* Check 2: identity, and the latest QC credential *)
  let sc := scan_credentials s (materialCredentials_at s materialId) in
  let reasons2 :=
    if negb (hasIdentity sc) then reasons1 ++ ["MISSING_IDENTITY"%string] else reasons1 in
  let hasValidQC :=
    negb (latestQcIssuedAt sc =? 0) && (atTime <=? latestQcValidUntil sc)
    && negb (latestQcFromRevokedIssuer sc) in
  let reasons3 :=
    if negb hasValidQC then
      if latestQcIssuedAt sc =? 0 then reasons2 ++ ["QC_MISSING"%string]
      else if latestQcFromRevokedIssuer sc then reasons2 ++ ["QC_ISSUER_REVOKED"%string]
      else reasons2 ++ ["QC_EXPIRED"%string]
    else reasons2 in
  (* Check 3: transfer chain continuity *)
  let transfers := materialTransfers_at s materialId in
  let reasons4 :=
    if existsb (fun x => negb (Transfer.accepted x)) transfers
    then reasons3 ++ ["TRANSFER_PENDING"%string] else reasons3 in
  (* [pass = (reasonCount == 0)] *)
  (Nat.eqb (length reasons4) 0, reasons4).

Definition verifyMaterialAt (materialId : string) (atTime : uint256) (s : State)
  : Result (bool * list string) :=
  let* _ := materialMustExist materialId s in
  Ok (_verifyMaterialAt materialId atTime s).

Definition verifyMaterial (block_timestamp : uint256) (materialId : string) (s : State)
  : Result (bool * list string) :=
  let* _ := materialMustExist materialId s in
  Ok (_verifyMaterialAt materialId block_timestamp s).

Definition getHistoryCount (materialId : string) (s : State) : uint256 :=
  N.of_nat (length (materialHistory_at s materialId)).

(** ** State-changing functions *)

Section Registry.

(** The EVM's hash, over a byte string. *)
Variable keccak256 : string -> bytes32.

Definition CELL_LINE_HASH : bytes32 := keccak256 "CELL_LINE".
Definition PLASMID_HASH : bytes32 := keccak256 "PLASMID".

Definition authorizeIssuer (msg_sender : address)
    (issuer : address) (canIdentity canQC canUsageRights : bool) (s : State)
  : Result State :=
  let* _ := onlyAdmin msg_sender s in
  let s := set_issuerPermissions
             (<[issuer := IssuerPermission.mk true canIdentity canQC canUsageRights]>
                (issuerPermissions s)) s in
  (* Clear any previous revocation *)
  let s := set_issuerRevokedAt (<[issuer := 0]> (issuerRevokedAt s)) s in
  Ok s.

Definition revokeIssuer (msg_sender : address) (block_timestamp : uint256)
    (issuer : address) (s : State) : Result State :=
  let* _ := onlyAdmin msg_sender s in
  let s := set_issuerPermissions
             (<[issuer := IssuerPermission.set_isApproved false (issuerPermissions_at s issuer)]>
                (issuerPermissions s)) s in
  let s := set_issuerRevokedAt (<[issuer := block_timestamp]> (issuerRevokedAt s)) s in
  Ok s.

Definition registerMaterial (msg_sender : address) (block_timestamp : uint256)
    (materialType : string) (metadataHash : bytes32) (ownerOrg : string) (s : State)
  : Result (State * string) :=
  let mtHash := keccak256 materialType in
  let* _ := revert_if (negb (mtHash =? CELL_LINE_HASH) && negb (mtHash =? PLASMID_HASH))
              InvalidMaterialType in
  let* _ := revert_if (metadataHash =? 0) InvalidCommitmentHash in
  let* count := checked_inc (materialCount s) in
  let s := set_materialCount count s in
  let typePrefix := if mtHash =? CELL_LINE_HASH then "cell_line"%string else "plasmid"%string in
  let* n := uint2str (materialCount s) in
  let materialId := "bio:" +:+ typePrefix +:+ ":" +:+ n in
  let* _ := revert_if (materialExists_at s materialId) MaterialAlreadyExists in
  let s := set_materials
             (<[materialId :=
                  Material.mk materialId materialType metadataHash msg_sender ownerOrg
                    ACTIVE block_timestamp block_timestamp]> (materials s)) s in
  let s := set_materialExists (<[materialId := true]> (materialExists s)) s in
  let s := push_history materialId
             (keccak256 ("REGISTERED" +:+ packed_address msg_sender
                           +:+ packed_uint256 block_timestamp)) s in
  Ok (s, materialId).

Definition setStatusByOwner (msg_sender : address) (block_timestamp : uint256)
    (materialId : string) (newStatus : MaterialStatus) (reasonHash : bytes32) (s : State)
  : Result State :=
  let* _ := onlyMaterialOwner msg_sender materialId s in
  (* Owners can only set QUARANTINED or return to ACTIVE *)
  let* _ := revert_if (bool_decide (newStatus = REVOKED)) NotAuthorizedForStatus in
  let mat := materials_at s materialId in
  let oldStatus := Material.status mat in
  (* Cannot change from REVOKED *)
  let* _ := revert_if (bool_decide (oldStatus = REVOKED)) NotAuthorizedForStatus in
  let mat := Material.set_updatedAt block_timestamp (Material.set_status newStatus mat) in
  let s := set_materials (<[materialId := mat]> (materials s)) s in
  let s := push_history materialId
             (keccak256 ("STATUS_OWNER" +:+ packed_uint8 (status_uint8 newStatus)
                           +:+ packed_bytes32 reasonHash
                           +:+ packed_uint256 block_timestamp)) s in
  Ok s.

Definition setStatusByAuthority (msg_sender : address) (block_timestamp : uint256)
    (materialId : string) (newStatus : MaterialStatus) (reasonHash : bytes32) (s : State)
  : Result State :=
  let* _ := materialMustExist materialId s in
  (* Must be admin OR an approved QC issuer (not revoked) *)
  let isAuthorized :=
    (msg_sender =? admin s)
    || (IssuerPermission.isApproved (issuerPermissions_at s msg_sender)
        && IssuerPermission.canIssueQC (issuerPermissions_at s msg_sender)
        && (issuerRevokedAt_at s msg_sender =? 0)) in
  let* _ := revert_if (negb isAuthorized) NotAuthorizedForStatus in
  let mat := materials_at s materialId in
  let mat := Material.set_updatedAt block_timestamp (Material.set_status newStatus mat) in
  let s := set_materials (<[materialId := mat]> (materials s)) s in
  let s := push_history materialId
             (keccak256 ("STATUS_AUTHORITY" +:+ packed_address msg_sender
                           +:+ packed_uint8 (status_uint8 newStatus)
                           +:+ packed_bytes32 reasonHash
                           +:+ packed_uint256 block_timestamp)) s in
  Ok s.

Definition issueCredential (msg_sender : address) (block_timestamp : uint256)
    (materialId : string) (credType : CredentialType) (commitmentHash : bytes32)
    (validUntil : uint256) (artifactCid : string) (artifactHash : bytes32)
    (issuerId : string) (s : State) : Result (State * string) :=
  let* _ := onlyApprovedIssuer msg_sender s in
  let* _ := materialMustExist materialId s in
  (* Input sanity checks *)
  let* _ := revert_if (commitmentHash =? 0) InvalidCommitmentHash in
  let* _ := revert_if (artifactHash =? 0) InvalidArtifactHash in
  let* _ := revert_if (negb (validUntil =? 0) && (validUntil <=? block_timestamp))
              InvalidValidUntil in
  (* Check issuer has permission for this credential type *)
  let perm := issuerPermissions_at s msg_sender in
  let* _ :=
    match credType with
    | IDENTITY =>
        revert_if (negb (IssuerPermission.canIssueIdentity perm)) NotAuthorizedForCredentialType
    | QC_MYCO =>
        revert_if (negb (IssuerPermission.canIssueQC perm)) NotAuthorizedForCredentialType
    | USAGE_RIGHTS =>
        revert_if (negb (IssuerPermission.canIssueUsageRights perm))
          NotAuthorizedForCredentialType
    end in
  let* count := checked_inc (credentialCount s) in
  let s := set_credentialCount count s in
  let* n := uint2str (credentialCount s) in
  let credentialId := "cred:" +:+ n in
  let s := set_credentials
             (<[credentialId :=
                  Credential.mk credentialId materialId credType commitmentHash msg_sender
                    issuerId block_timestamp validUntil artifactCid artifactHash false]>
                (credentials s)) s in
  let s := set_materialCredentials
             (<[materialId := materialCredentials_at s materialId ++ [credentialId]]>
                (materialCredentials s)) s in
  let s := push_history materialId
             (keccak256 ("CREDENTIAL_ISSUED" +:+ credentialId
                           +:+ packed_uint8 (credType_uint8 credType)
                           +:+ packed_uint256 block_timestamp)) s in
  Ok (s, credentialId).

Definition revokeCredential (msg_sender : address) (block_timestamp : uint256)
    (credentialId : string) (s : State) : Result State :=
  let cred := credentials_at s credentialId in
  let* _ := revert_if (Nat.eqb (String.length (Credential.credentialId cred)) 0)
              CredentialNotFound in
  let* _ := revert_if (negb (Credential.issuer cred =? msg_sender)
                       && negb (msg_sender =? admin s)) NotAuthorizedToRevoke in
  let* _ := revert_if (Credential.revoked cred) CredentialAlreadyRevoked in
  let cred := Credential.set_revoked true cred in
  let s := set_credentials (<[credentialId := cred]> (credentials s)) s in
  let s := push_history (Credential.materialId cred)
             (keccak256 ("CREDENTIAL_REVOKED" +:+ credentialId
                           +:+ packed_uint256 block_timestamp)) s in
  Ok s.

Definition initiateTransfer (msg_sender : address) (block_timestamp : uint256)
    (materialId : string) (toAddress : address) (toOrg : string) (shipmentHash : bytes32)
    (s : State) : Result (State * string) :=
  let* _ := onlyMaterialOwner msg_sender materialId s in
  let mat := materials_at s materialId in
  let* _ := revert_if (negb (bool_decide (Material.status mat = ACTIVE))) MaterialNotActive in
  (* Check no pending transfers *)
  let transfers := materialTransfers_at s materialId in
  let* _ :=
    match last transfers with
    | Some x => revert_if (negb (Transfer.accepted x)) PendingTransferExists
    | None => Ok tt
    end in
  let* count := checked_inc (transferCount s) in
  let s := set_transferCount count s in
  let* n := uint2str (transferCount s) in
  let transferId := "xfer:" +:+ n in
  let s := set_materialTransfers
             (<[materialId :=
                  transfers ++ [Transfer.mk transferId materialId msg_sender
                                  (Material.ownerOrg mat) toAddress toOrg shipmentHash
                                  block_timestamp false]]> (materialTransfers s)) s in
  let s := push_history materialId
             (keccak256 ("TRANSFER_INITIATED" +:+ transferId +:+ packed_address toAddress
                           +:+ packed_uint256 block_timestamp)) s in
  Ok (s, transferId).

Definition acceptTransfer (msg_sender : address) (block_timestamp : uint256)
    (materialId : string) (s : State) : Result State :=
  let* _ := materialMustExist materialId s in
  let transfers := materialTransfers_at s materialId in
  match last transfers with
  | None => Revert NoTransfers
  | Some pending =>
      let* _ := revert_if (Transfer.accepted pending) NoPendingTransfer in
      let* _ := revert_if (negb (Transfer.toAddress pending =? msg_sender))
                  NotTransferRecipient in
      let pending := Transfer.set_accepted true pending in
      let s := set_materialTransfers
                 (<[materialId := <[(length transfers - 1)%nat := pending]> transfers]>
                    (materialTransfers s)) s in
      let mat := materials_at s materialId in
      let mat := Material.set_updatedAt block_timestamp
                   (Material.set_ownerOrg (Transfer.toOrg pending)
                      (Material.set_owner msg_sender mat)) in
      let s := set_materials (<[materialId := mat]> (materials s)) s in
      let s := push_history materialId
                 (keccak256 ("TRANSFER_ACCEPTED" +:+ Transfer.transferId pending
                               +:+ packed_address msg_sender
                               +:+ packed_uint256 block_timestamp)) s in
      Ok s
  end.

(** ** Transactions *)

Inductive Call : Type :=
| AuthorizeIssuer (issuer : address) (canIdentity canQC canUsageRights : bool)
| RevokeIssuer (issuer : address)
| RegisterMaterial (materialType : string) (metadataHash : bytes32) (ownerOrg : string)
| SetStatusByOwner (materialId : string) (newStatus : MaterialStatus) (reasonHash : bytes32)
| SetStatusByAuthority (materialId : string) (newStatus : MaterialStatus) (reasonHash : bytes32)
| IssueCredential (materialId : string) (credType : CredentialType) (commitmentHash : bytes32)
    (validUntil : uint256) (artifactCid : string) (artifactHash : bytes32) (issuerId : string)
| RevokeCredential (credentialId : string)
| InitiateTransfer (materialId : string) (toAddress : address) (toOrg : string)
    (shipmentHash : bytes32)
| AcceptTransfer (materialId : string).

Definition drop_result {A} (r : Result (State * A)) : Result State :=
  match r with
  | Ok (s, _) => Ok s
  | Revert e => Revert e
  end.

(** The post-state of a call that does not revert. *)
Definition execute (msg_sender : address) (block_timestamp : uint256) (c : Call) (s : State)
  : Result State :=
  match c with
  | AuthorizeIssuer issuer ci cq cu => authorizeIssuer msg_sender issuer ci cq cu s
  | RevokeIssuer issuer => revokeIssuer msg_sender block_timestamp issuer s
  | RegisterMaterial mt mh org =>
      drop_result (registerMaterial msg_sender block_timestamp mt mh org s)
  | SetStatusByOwner id st rh => setStatusByOwner msg_sender block_timestamp id st rh s
  | SetStatusByAuthority id st rh => setStatusByAuthority msg_sender block_timestamp id st rh s
  | IssueCredential id ct ch vu cid ah iid =>
      drop_result (issueCredential msg_sender block_timestamp id ct ch vu cid ah iid s)
  | RevokeCredential cid => revokeCredential msg_sender block_timestamp cid s
  | InitiateTransfer id to org sh =>
      drop_result (initiateTransfer msg_sender block_timestamp id to org sh s)
  | AcceptTransfer id => acceptTransfer msg_sender block_timestamp id s
  end.

(** A transaction on the chain: a revert rolls every write back. *)
Definition transact (msg_sender : address) (block_timestamp : uint256) (c : Call) (s : State)
  : State :=
  match execute msg_sender block_timestamp c s with
  | Ok s' => s'
  | Revert _ => s
  end.

(** States the contract can be in: deployed by anyone, then called by
    anyone, in blocks whose timestamps satisfy [T]. *)
Inductive reachable_under (T : uint256 -> Prop) : State -> Prop :=
| reachable_deploy (deployer : address) : reachable_under T (constructor deployer)
| reachable_call (s s' : State) (msg_sender : address) (block_timestamp : uint256) (c : Call) :
    reachable_under T s ->
    T block_timestamp ->
    execute msg_sender block_timestamp c s = Ok s' ->
    reachable_under T s'.

(** Any timestamps at all. *)
Definition reachable : State -> Prop := reachable_under (fun _ => True).

(** Timestamps as a chain produces them: Unix time, never zero. *)
Definition reachable_on_chain : State -> Prop := reachable_under (fun t => 0 < t).

End Registry.

(** ** Predicates on states *)

(** An identifier [registerMaterial] can have minted with the counter at
    most [count]. *)
Definition minted_id (count : uint256) (id : string) : Prop :=
  exists (typePrefix : string) (n : N),
    (typePrefix = "cell_line"%string \/ typePrefix = "plasmid"%string)
    /\ 1 <= n <= count
    /\ id = "bio:" +:+ typePrefix +:+ ":" +:+ decimal n.

Definition ids_minted (s : State) : Prop :=
  forall id, materialExists_at s id = true -> minted_id (materialCount s) id.

(** An unaccepted transfer can only sit at the end of the sequence. *)
Definition pending_only_last (transfers : list Transfer.t) : Prop :=
  forall (i : nat) (x : Transfer.t),
    transfers !! i = Some x -> Transfer.accepted x = false -> S i = length transfers.

Definition pending_count (transfers : list Transfer.t) : nat :=
  length (List.filter (fun x => negb (Transfer.accepted x)) transfers).

Definition transfers_of_existing (s : State) : Prop :=
  forall id, materialTransfers_at s id <> [] -> materialExists_at s id = true.

Definition materials_of_existing (s : State) : Prop :=
  forall id m, materials s !! id = Some m -> materialExists_at s id = true.

Definition credentials_timestamped (s : State) : Prop :=
  forall id credId,
    credId ∈ materialCredentials_at s id -> 0 < Credential.issuedAt (credentials_at s credId).

Definition transfers_well_formed (s : State) : Prop :=
  (forall id, pending_only_last (materialTransfers_at s id))
  /\ transfers_of_existing s.

(** A credential the latest-QC search looks at. *)
Definition eligible_qc (c : Credential.t) : Prop :=
  Credential.credType c = QC_MYCO /\ Credential.revoked c = false.

(** The credentials [getCredentials] returns, in insertion order. *)
Definition getCredentials (materialId : string) (s : State) : list Credential.t :=
  credentials_at s <$> materialCredentials_at s materialId.

(** All history entries of all materials. *)
Definition history_total (s : State) : nat :=
  map_fold (fun (_ : string) (h : list N) (n : nat) => (length h + n)%nat) 0%nat
    (materialHistory s).

(** [s'] is [s] with one entry pushed on the history of material [id]; the
    histories of all other materials are as in [s]. *)
Definition appends_one_entry (id : string) (s s' : State) : Prop :=
  exists h : bytes32,
    materialHistory s' = <[id := materialHistory_at s id ++ [h]]> (materialHistory s).

(** The two administrative calls, which concern an issuer and no material. *)
Definition issuer_call (c : Call) : bool :=
  match c with
  | AuthorizeIssuer _ _ _ _ | RevokeIssuer _ => true
  | _ => false
  end.

(** The material a call concerns: the one named by its [materialId]
    argument; for [registerMaterial] the material it creates, under the
    identifier it returns; for [revokeCredential] the material of the
    stored credential; none for the two administrative calls. *)
Definition material_concerned (keccak256 : string -> bytes32) (msg_sender : address)
    (block_timestamp : uint256) (c : Call) (s : State) : option string :=
  match c with
  | AuthorizeIssuer _ _ _ _ | RevokeIssuer _ => None
  | RegisterMaterial mt mh org =>
      match registerMaterial keccak256 msg_sender block_timestamp mt mh org s with
      | Ok (_, materialId) => Some materialId
      | Revert _ => None
      end
  | SetStatusByOwner id _ _ | SetStatusByAuthority id _ _ => Some id
  | IssueCredential id _ _ _ _ _ _ => Some id
  | RevokeCredential cid => Some (Credential.materialId (credentials_at s cid))
  | InitiateTransfer id _ _ _ | AcceptTransfer id => Some id
  end.

(** The capability flag [issueCredential] consults for a credential type. *)
Definition has_capability (perm : IssuerPermission.t) (credType : CredentialType) : bool :=
  match credType with
  | IDENTITY => IssuerPermission.canIssueIdentity perm
  | QC_MYCO => IssuerPermission.canIssueQC perm
  | USAGE_RIGHTS => IssuerPermission.canIssueUsageRights perm
  end.

(** A credential the identity check accepts. *)
Definition valid_identity (s : State) (c : Credential.t) : bool :=
  bool_decide (Credential.credType c = IDENTITY)
  && negb (Credential.revoked c)
  && negb (issuerWasRevokedBeforeIssuance s c).

(** ** Read functions *)

(** [a + b] on [uint256], checked since Solidity 0.8. *)
Definition checked_add (a b : uint256) : Result uint256 :=
  if a + b <=? MAX_UINT256 then Ok (a + b) else Revert Panic.

Definition getMaterial (materialId : string) (s : State) : Result Material.t :=
  let* _ := materialMustExist materialId s in
  Ok (materials_at s materialId).

Definition getCredentialIds (materialId : string) (s : State) : list string :=
  materialCredentials_at s materialId.

Definition getCredential (credentialId : string) (s : State) : Result Credential.t :=
  let* _ := revert_if
              (Nat.eqb (String.length (Credential.credentialId (credentials_at s credentialId))) 0)
              CredentialNotFound in
  Ok (credentials_at s credentialId).

Definition getTransfers (materialId : string) (s : State) : list Transfer.t :=
  materialTransfers_at s materialId.

Definition getHistoryAt (materialId : string) (index : uint256) (s : State) : Result bytes32 :=
  let history := materialHistory_at s materialId in
  let* _ := revert_if (N.of_nat (length history) <=? index) InvalidHistoryIndex in
  match history !! N.to_nat index with
  | Some h => Ok h
  | None => Revert Panic
  end.

(** [for (uint256 i = offset; i < end; i++) slice[i - offset] = history[i];]
    with both indexings bounds-checked. *)
Equations? slice_loop (history : list bytes32) (offset end_ i : uint256) (slice : list bytes32)
  : Result (list bytes32) by wf (N.to_nat (end_ - i)) lt :=
  slice_loop history offset end_ i slice with decide (i < end_) => {
    | right _ := Ok slice;
    | left _ :=
        match history !! N.to_nat i with
        | None => Revert Panic
        | Some h =>
            if i <? offset then Revert Panic
            else if (N.to_nat (i - offset) <? length slice)%nat
            then slice_loop history offset end_ (i + 1) (<[N.to_nat (i - offset) := h]> slice)
            else Revert Panic
        end }.
Proof. lia. Qed.

Definition getHistorySlice (materialId : string) (offset limit : uint256) (s : State)
  : Result (list bytes32) :=
  let history := materialHistory_at s materialId in
  let len := N.of_nat (length history) in
  if len <=? offset then Ok []
  else
    let* end_ := checked_add offset limit in
    let end_ := if len <? end_ then len else end_ in
    let slice := replicate (N.to_nat (end_ - offset)) 0 in
    slice_loop history offset end_ offset slice.

(** ** Runs of the contract *)

Section Runs.

Variable keccak256 : string -> bytes32.

(** [evolves s s']: some sequence of successful calls leads from [s] to [s']. *)
Inductive evolves : State -> State -> Prop :=
| evolves_refl (s : State) : evolves s s
| evolves_call (s s1 s2 : State) (msg_sender : address) (block_timestamp : uint256) (c : Call) :
    evolves s s1 ->
    execute keccak256 msg_sender block_timestamp c s1 = Ok s2 ->
    evolves s s2.

End Runs.

(** ** What the stores of a reachable state look like *)

Definition minted_credential_id (count : uint256) (credId : string) : Prop :=
  exists n : N, 1 <= n <= count /\ credId = "cred:" +:+ decimal n.

Record store_consistent (s : State) : Prop := {
  sc_flags : forall id b, materialExists s !! id = Some b -> b = true;
  sc_count : size (materialExists s) = N.to_nat (materialCount s);
  sc_materials : forall id, materialExists_at s id = true ->
      exists m, materials s !! id = Some m /\ Material.materialId m = id;
  sc_cred_lists : forall id, materialCredentials_at s id <> [] -> materialExists_at s id = true;
  sc_history : forall id, materialHistory_at s id <> [] <-> materialExists_at s id = true;
  sc_stored : forall k c, credentials s !! k = Some c ->
      Credential.credentialId c = k
      /\ minted_credential_id (credentialCount s) k
      /\ k ∈ materialCredentials_at s (Credential.materialId c)
      /\ Credential.commitmentHash c <> 0
      /\ Credential.artifactHash c <> 0;
  sc_listed : forall id credId, credId ∈ materialCredentials_at s id ->
      exists c, credentials s !! credId = Some c /\ Credential.materialId c = id;
  sc_nodup : forall id, NoDup (materialCredentials_at s id);
  sc_approved : forall a, IssuerPermission.isApproved (issuerPermissions_at s a) = true ->
      issuerRevokedAt_at s a = 0 }.

(** ** The reasons of [_verifyMaterialAt], check by check *)

Definition status_reasons (st : MaterialStatus) : list string :=
  match st with
  | REVOKED => ["MATERIAL_REVOKED"%string]
  | QUARANTINED => ["MATERIAL_QUARANTINED"%string]
  | ACTIVE => []
  end.

Definition identity_reasons (sc : Scan) : list string :=
  if hasIdentity sc then [] else ["MISSING_IDENTITY"%string].

Definition qc_reasons (sc : Scan) (atTime : uint256) : list string :=
  if negb (latestQcIssuedAt sc =? 0) && (atTime <=? latestQcValidUntil sc)
     && negb (latestQcFromRevokedIssuer sc)
  then []
  else if latestQcIssuedAt sc =? 0 then ["QC_MISSING"%string]
  else if latestQcFromRevokedIssuer sc then ["QC_ISSUER_REVOKED"%string]
  else ["QC_EXPIRED"%string].

Definition transfer_reasons (transfers : list Transfer.t) : list string :=
  if existsb (fun x => negb (Transfer.accepted x)) transfers
  then ["TRANSFER_PENDING"%string] else [].

(** The codes the contract can emit, in the order of its checks. *)
Definition reason_codes : list string :=
  ["MATERIAL_REVOKED"; "MATERIAL_QUARANTINED"; "MISSING_IDENTITY"; "QC_MISSING";
   "QC_ISSUER_REVOKED"; "QC_EXPIRED"; "TRANSFER_PENDING"]%string.

(** ** Chain of custody *)

(** Every transfer but the last is accepted and hands over to the sender of
    the next one; the owner is the recipient of the last transfer once it is
    accepted, and its sender until then. *)
Definition custody_chain (owner : address) (transfers : list Transfer.t) : Prop :=
  (forall i a b, transfers !! i = Some a -> transfers !! S i = Some b ->
                 Transfer.accepted a = true /\ Transfer.toAddress a = Transfer.fromAddress b)
  /\ match last transfers with
     | Some x => owner = if Transfer.accepted x then Transfer.toAddress x
                         else Transfer.fromAddress x
     | None => True
     end.

(** ** Decimal numerals *)

Definition is_digit (ch : ascii) : Prop := 48 <= N_of_ascii ch <= 57.

(** ** A concrete chain for closed examples *)

(** Stand-in for the hash in examples: the byte string read as a base-256
    numeral behind a leading 1, so different strings get different digests. *)
Fixpoint bytes_to_N (acc : N) (b : string) : N :=
  match b with
  | EmptyString => acc
  | String c r => bytes_to_N (acc * 256 + N_of_ascii c) r
  end.

Definition demo_keccak256 (b : string) : bytes32 := bytes_to_N 1 b.

Module Demo.
Definition tx := transact demo_keccak256.
Definition deployer : address := 1.
Definition repositoryIssuer : address := 2.
Definition qcLabIssuer : address := 3.
Definition labA : address := 5.
Definition labB : address := 6.
Definition m1 : string := "bio:cell_line:1".

(** Deployment, two issuers, a cell line owned by lab A. *)
Definition deployed : State := constructor deployer.
Definition with_issuers : State :=
  tx deployer 1001 (AuthorizeIssuer qcLabIssuer false true false)
    (tx deployer 1000 (AuthorizeIssuer repositoryIssuer true false true) deployed).
Definition registered : State :=
  tx labA 1002 (RegisterMaterial "CELL_LINE" 77 "LabA_MSP") with_issuers.
(** Identity valid to 50000 and a first QC valid to 9000. *)
Definition with_identity : State :=
  tx repositoryIssuer 1003 (IssueCredential m1 IDENTITY 11 50000 "s3://id" 12 "Repo")
    registered.
Definition happy : State :=
  tx qcLabIssuer 1004 (IssueCredential m1 QC_MYCO 13 9000 "s3://qc" 14 "QC") with_identity.
(** A second, later QC that runs out at 2000 while the first is still in its window. *)
Definition newer_qc : State :=
  tx qcLabIssuer 1100 (IssueCredential m1 QC_MYCO 15 2000 "s3://qc2" 16 "QC") happy.
(** Instead, a later QC issued with [validUntil = 0]. *)
Definition open_ended_qc : State :=
  tx qcLabIssuer 1100 (IssueCredential m1 QC_MYCO 15 0 "s3://qc2" 16 "QC") happy.
(** The admin revokes the QC lab. *)
Definition qc_lab_revoked : State := tx deployer 1200 (RevokeIssuer qcLabIssuer) happy.
(** The admin revokes the material, then sets it ACTIVE again. *)
Definition material_revoked : State := tx deployer 1200 (SetStatusByAuthority m1 REVOKED 21) happy.
Definition reinstated : State :=
  tx deployer 1300 (SetStatusByAuthority m1 ACTIVE 22) material_revoked.
(** Lab A ships to lab B; the admin revokes the material before acceptance. *)
Definition in_transit : State := tx labA 1200 (InitiateTransfer m1 labB "LabB_MSP" 31) happy.
Definition revoked_in_transit : State :=
  tx deployer 1300 (SetStatusByAuthority m1 REVOKED 21) in_transit.
End Demo.

(** More of the same chain, for the read functions and the transfers. *)
Module Tour.
Definition m2 : string := "bio:plasmid:2".
(** A usage-rights credential on the first material. *)
Definition with_usage_rights : State :=
  Demo.tx Demo.repositoryIssuer 1100
    (IssueCredential Demo.m1 USAGE_RIGHTS 41 0 "s3://mta" 42 "Repo") Demo.happy.
(** Lab B accepts the shipment of [Demo.in_transit]. *)
Definition delivered : State := Demo.tx Demo.labB 1300 (AcceptTransfer Demo.m1) Demo.in_transit.
(** The QC lab quarantines the material; lab A, its owner, releases it. *)
Definition quarantined : State :=
  Demo.tx Demo.qcLabIssuer 1200 (SetStatusByAuthority Demo.m1 QUARANTINED 51) Demo.happy.
Definition released : State :=
  Demo.tx Demo.labA 1300 (SetStatusByOwner Demo.m1 ACTIVE 52) quarantined.
(** The QC lab revokes its own first QC credential. *)
Definition qc_withdrawn : State :=
  Demo.tx Demo.qcLabIssuer 1200 (RevokeCredential "cred:2") Demo.happy.
(** A plasmid registered by lab B on the happy chain. *)
Definition two_materials : State :=
  Demo.tx Demo.labB 1200 (RegisterMaterial "PLASMID" 78 "LabB_MSP") Demo.happy.
End Tour.

(** * Proofs *)

(** ** uint2str writes the decimal numeral *)

Lemma count_digits_spec (j length : N) :
  count_digits j length = length + N.of_nat (List.length (digits j)).
Proof.
  funelim (count_digits j length); simp digits; rewrite Heq; simpl.
  - lia.
  - rewrite H. rewrite length_app. simpl. lia.
Qed.

Lemma mod10_as_written (i : N) : i - i / 10 * 10 = i mod 10.
Proof. rewrite (N.Div0.mod_eq i 10). lia. Qed.

Lemma fill_digits_spec (i k : N) (bstr : list ascii) :
  (List.length (digits i) <= N.to_nat k <= List.length bstr)%nat ->
  fill_digits i k bstr =
    Ok (take (N.to_nat k - List.length (digits i)) bstr ++ digits i ++ drop (N.to_nat k) bstr).
Proof.
  funelim (fill_digits i k bstr); simp digits; rewrite Heq; simpl.
  - intros Hk. rewrite Nat.sub_0_r, take_drop. reflexivity.
  - rewrite length_app. simpl. intros Hk.
    destruct (N.eqb_spec k 0) as [->|Hk0]; [simpl in Hk; lia|].
    destruct (Nat.ltb_spec (N.to_nat (k - 1)) (List.length bstr)) as [Hlt|Hge]; [|lia].
    rewrite H; [|rewrite length_insert; lia].
    f_equal. rewrite mod10_as_written.
    replace (N.to_nat (k - 1) - List.length (digits (_i / 10)))%nat
      with (N.to_nat k - (List.length (digits (_i / 10)) + 1))%nat by lia.
    rewrite take_insert_ge by lia.
    rewrite <- app_assoc. f_equal. f_equal. simpl.
    erewrite (drop_S (<[_:=_]> bstr)) by (apply list_lookup_insert_eq; lia).
    replace (S (N.to_nat (k - 1))) with (N.to_nat k) by lia.
    rewrite drop_insert_lt by lia. reflexivity.
Qed.

Lemma decimal_value_digits (i : N) : decimal_value (digits i) = i.
Proof.
  unfold decimal_value. funelim (digits i).
  - simpl. lia.
  - rewrite fold_left_app. simpl. rewrite H. unfold digit_value.
    rewrite N_ascii_embedding.
    + pose proof (N.div_mod i 10 ltac:(lia)). clear - H0.
      remember (i / 10) as q. remember (i mod 10) as r. lia.
    + assert (i mod 10 < 10) by (apply N.mod_lt; lia). lia.
Qed.

Lemma uint2str_spec (i : N) : uint2str i = Ok (decimal i).
Proof.
  unfold uint2str, decimal. destruct (i =? 0); [reflexivity|].
  cbv zeta. rewrite count_digits_spec, N.add_0_l.
  rewrite fill_digits_spec by (rewrite length_replicate, Nat2N.id; lia).
  rewrite Nat2N.id, Nat.sub_diag, drop_ge by (rewrite length_replicate; lia).
  simpl. rewrite app_nil_r. reflexivity.
Qed.

Lemma decimal_inj (a b : N) : decimal a = decimal b -> a = b.
Proof.
  unfold decimal. intros H.
  apply (f_equal String.list_ascii_of_string) in H.
  rewrite !String.list_ascii_of_string_of_list_ascii in H.
  apply (f_equal decimal_value) in H.
  destruct (N.eqb_spec a 0) as [Ha|Ha]; destruct (N.eqb_spec b 0) as [Hb|Hb];
    rewrite ?decimal_value_digits in H; [congruence| | |exact H].
  - vm_compute in H. congruence.
  - vm_compute in H. congruence.
Qed.

Lemma uint2str_inj (a b : N) : uint2str a = uint2str b -> a = b.
Proof. rewrite !uint2str_spec. intros [= H]. by apply decimal_inj. Qed.

Example uint2str_one : uint2str 1 = Ok "1"%string.
Proof. reflexivity. Qed.

Example uint2str_2026 : uint2str 2026 = Ok "2026"%string.
Proof. reflexivity. Qed.

(** Two minted identifiers are equal only if their numerals are. *)
Lemma minted_suffix_inj (p q x y : string) :
  p = "cell_line"%string \/ p = "plasmid"%string ->
  q = "cell_line"%string \/ q = "plasmid"%string ->
  "bio:" +:+ p +:+ ":" +:+ x = "bio:" +:+ q +:+ ":" +:+ y -> x = y.
Proof.
  intros [-> | ->] [-> | ->] H; cbv [String.append] in H; congruence.
Qed.

(** ** Reading the outcome of a call *)

Lemma bind_revert_if_Ok {A} (c : bool) (e : Error) (k : unit -> Result A) (a : A) :
  bind (revert_if c e) k = Ok a -> c = false /\ k tt = Ok a.
Proof. destruct c; simpl; [discriminate | auto]. Qed.

Lemma bind_checked_inc_Ok {A} (n : N) (k : N -> Result A) (a : A) :
  bind (checked_inc n) k = Ok a -> n < MAX_UINT256 /\ k (n + 1) = Ok a.
Proof.
  unfold checked_inc. destruct (N.ltb_spec n MAX_UINT256); simpl; [auto | discriminate].
Qed.

Lemma bind_uint2str {A} (n : N) (k : string -> Result A) :
  bind (uint2str n) k = k (decimal n).
Proof. rewrite uint2str_spec. reflexivity. Qed.

Lemma bind_assoc {A B C} (r : Result A) (f : A -> Result B) (k : B -> Result C) :
  bind (bind r f) k = bind r (fun x => bind (f x) k).
Proof. destruct r; reflexivity. Qed.

Lemma default_lookup_insert `{Countable K} {V} (d : V) (m : gmap K V) (k k' : K) (v : V) :
  default d (<[k := v]> m !! k') = if decide (k = k') then v else default d (m !! k').
Proof. rewrite lookup_insert. destruct (decide (k = k')); reflexivity. Qed.

Lemma drop_result_Ok {A} (r : Result (State * A)) (s' : State) :
  drop_result r = Ok s' -> exists ret, r = Ok (s', ret).
Proof. destruct r as [[s ret]|]; simpl; [intros [= ->]; eauto | discriminate]. Qed.

(** Peels the guards off a hypothesis [H : ... = Ok _], leaving the facts
    that made each guard pass and the final state. *)
Ltac inv_Ok H :=
  repeat
    (cbv zeta in H;
     match type of H with
     | bind (revert_if _ _) _ = Ok _ =>
         let Hc := fresh "Hc" in apply bind_revert_if_Ok in H as [Hc H]
     | bind (checked_inc _) _ = Ok _ =>
         let Hc := fresh "Hc" in apply bind_checked_inc_Ok in H as [Hc H]
     | bind (uint2str _) _ = Ok _ => rewrite bind_uint2str in H
     | bind (onlyAdmin _ _) _ = Ok _ => unfold onlyAdmin in H
     | bind (onlyMaterialOwner _ _ _) _ = Ok _ => unfold onlyMaterialOwner in H
     | bind (onlyApprovedIssuer _ _) _ = Ok _ => unfold onlyApprovedIssuer in H
     | bind (materialMustExist _ _) _ = Ok _ => unfold materialMustExist in H
     | bind (bind _ _) _ = Ok _ => rewrite bind_assoc in H
     | bind (match ?x with _ => _ end) _ = Ok _ => destruct x eqn:?
     | bind (Ok _) _ = Ok _ => unfold bind at 1 in H
     | match ?x with _ => _ end = Ok _ => destruct x eqn:?; try discriminate H
     | Ok _ = Ok _ => injection H as H
     end).

Ltac simpl_state :=
  cbn [admin materialCount credentialCount transferCount materials materialExists
       materialCredentials credentials materialTransfers issuerPermissions issuerRevokedAt
       materialHistory set_materialCount set_credentialCount set_transferCount set_materials
       set_materialExists set_materialCredentials set_credentials set_materialTransfers
       set_issuerPermissions set_issuerRevokedAt set_materialHistory push_history] in *.

Ltac unfold_at :=
  unfold materials_at, materialExists_at, materialCredentials_at, credentials_at,
    materialTransfers_at, issuerPermissions_at, issuerRevokedAt_at, materialHistory_at in *.

Section Proofs.

Variable keccak256 : string -> bytes32.

(** Case analysis on a successful call: one goal per function, with the
    post-state written out. *)
Ltac exec_cases H c :=
  destruct c; cbn [execute] in H;
  try (let ret := fresh "ret" in apply drop_result_Ok in H as [ret H]);
  unfold authorizeIssuer, revokeIssuer, registerMaterial, setStatusByOwner,
    setStatusByAuthority, issueCredential, revokeCredential, initiateTransfer,
    acceptTransfer in H;
  inv_Ok H; subst; simpl_state; unfold_at; simpl_state.

Lemma ids_minted_reachable (T : N -> Prop) (s : State) :
  reachable_under keccak256 T s -> ids_minted s.
Proof.
  induction 1 as [deployer | s s' sender now c Hs IH HT Hex].
  - intros id. unfold materialExists_at. simpl. rewrite lookup_empty. discriminate.
  - unfold ids_minted, materialExists_at in *.
    exec_cases Hex c; try exact IH.
    intros id0. rewrite lookup_insert. case_decide as Hid.
    + intros _. subst id0. eexists _, (materialCount s + 1). split; [|split; [lia|reflexivity]].
      destruct (_ =? _); auto.
    + intros Hex. destruct (IH _ Hex) as (p & n & Hp & Hn & ->).
      exists p, n. split; [assumption|]. split; [lia|reflexivity].
Qed.

Lemma pending_only_last_snoc (l : list Transfer.t) (x : Transfer.t) :
  pending_only_last l ->
  match last l with Some y => Transfer.accepted y = true | None => True end ->
  pending_only_last (l ++ [x]).
Proof.
  intros Hl Hlast i y Hi Hy. rewrite length_app. simpl.
  destruct (decide (i < length l)%nat) as [Hlt|Hge].
  - rewrite lookup_app_l in Hi by assumption.
    pose proof (Hl i y Hi Hy) as Hend.
    rewrite last_lookup in Hlast. replace (pred (length l)) with i in Hlast by lia.
    rewrite Hi in Hlast. congruence.
  - apply lookup_lt_Some in Hi. rewrite length_app in Hi. simpl in Hi. lia.
Qed.

Lemma pending_only_last_accept (l : list Transfer.t) (x : Transfer.t) :
  pending_only_last l ->
  Transfer.accepted x = true ->
  pending_only_last (<[(length l - 1)%nat := x]> l).
Proof.
  intros Hl Hx i y Hi Hy. rewrite length_insert.
  destruct (decide (i = (length l - 1)%nat)) as [->|Hne].
  - apply lookup_lt_Some in Hi as Hlt. rewrite length_insert in Hlt.
    rewrite list_lookup_insert_eq in Hi by assumption. congruence.
  - rewrite list_lookup_insert_ne in Hi by congruence. eauto.
Qed.

Lemma filter_pending_nil (l : list Transfer.t) :
  (forall i y, l !! i = Some y -> Transfer.accepted y = true) ->
  List.filter (fun y => negb (Transfer.accepted y)) l = [].
Proof.
  induction l as [|a l IH]; simpl; intros H; [reflexivity|].
  rewrite (H O a eq_refl). simpl. apply IH. intros i y. apply (H (S i)).
Qed.

Lemma pending_only_last_count (l : list Transfer.t) :
  pending_only_last l -> (pending_count l <= 1)%nat.
Proof.
  unfold pending_count. destruct l as [|x l _] using rev_ind; intros Hl; [simpl; lia|].
  rewrite List.filter_app, length_app, filter_pending_nil.
  - simpl. destruct (negb _); simpl; lia.
  - intros i y Hi. destruct (Transfer.accepted y) eqn:Hy; [reflexivity|].
    apply lookup_lt_Some in Hi as Hlt.
    specialize (Hl i y). rewrite lookup_app_l, length_app in Hl by assumption.
    simpl in Hl. specialize (Hl Hi Hy). lia.
Qed.

Lemma transfers_well_formed_reachable (T : N -> Prop) (s : State) :
  reachable_under keccak256 T s -> transfers_well_formed s.
Proof.
  induction 1 as [deployer | s s' sender now c Hs IH HT Hex].
  - split; intros id; unfold materialTransfers_at; simpl; rewrite lookup_empty; simpl.
    + intros i x Hi. rewrite lookup_nil in Hi. discriminate.
    + congruence.
  - destruct IH as [IHp IHe].
    unfold transfers_well_formed, transfers_of_existing, materialTransfers_at,
      materialExists_at in *.
    exec_cases Hex c; try (split; assumption).
    all: unfold_at; split; intros id0; rewrite ?default_lookup_insert;
      try destruct (decide (_ = id0)) as [<-|Hne]; auto.
    + (* initiateTransfer, after an accepted transfer *)
      apply pending_only_last_snoc; [apply IHp|].
      rewrite Heqo. by destruct (Transfer.accepted t).
    + intros _. by destruct (default false _).
    + (* initiateTransfer, first transfer *)
      apply pending_only_last_snoc; [apply IHp|].
      by rewrite Heqo.
    + intros _. by destruct (default false _).
    + (* acceptTransfer *)
      apply pending_only_last_accept; [apply IHp | reflexivity].
    + intros _. by destruct (default false _).
Qed.

Lemma credentials_timestamped_reachable (T : N -> Prop) (s : State) :
  (forall t, T t -> 0 < t) ->
  reachable_under keccak256 T s -> credentials_timestamped s.
Proof.
  intros HTpos. induction 1 as [deployer | s s' sender now c Hs IH HT Hex].
  - intros id credId. unfold materialCredentials_at. simpl. rewrite lookup_empty. simpl.
    intros Hin. by apply not_elem_of_nil in Hin.
  - unfold credentials_timestamped in *.
    exec_cases Hex c; try exact IH; intros id0 credId0;
      rewrite ?default_lookup_insert;
      (destruct (decide (_ = credId0)) as [<-|Hne]; [simpl; auto|]).
    (* issueCredential, for each credential type *)
    1-3: destruct (decide (_ = id0)) as [<-|Hid]; [|apply IH];
      rewrite elem_of_app, list_elem_of_singleton; intros [Hin | ->]; [by eapply IH | done].
    (* revokeCredential *)
    all: apply IH.
Qed.

(** *** The credential loop *)

Lemma scan_credential_hit (s : State) (acc : Scan) (credId : string) :
  eligible_qc (credentials_at s credId) ->
  latestQcIssuedAt acc < Credential.issuedAt (credentials_at s credId) ->
  let sc := scan_credential s acc credId in
  latestQcIssuedAt sc = Credential.issuedAt (credentials_at s credId)
  /\ latestQcValidUntil sc = Credential.validUntil (credentials_at s credId)
  /\ latestQcFromRevokedIssuer sc = issuerWasRevokedBeforeIssuance s (credentials_at s credId).
Proof.
  intros [Hty Hrev] Hlt. unfold scan_credential. rewrite Hty, Hrev. simpl.
  apply N.ltb_lt in Hlt. rewrite Hlt. auto.
Qed.

Lemma scan_credential_miss (s : State) (acc : Scan) (credId : string) :
  (eligible_qc (credentials_at s credId) ->
   Credential.issuedAt (credentials_at s credId) <= latestQcIssuedAt acc) ->
  let sc := scan_credential s acc credId in
  latestQcIssuedAt sc = latestQcIssuedAt acc
  /\ latestQcValidUntil sc = latestQcValidUntil acc
  /\ latestQcFromRevokedIssuer sc = latestQcFromRevokedIssuer acc.
Proof.
  intros Hle. unfold scan_credential, eligible_qc in *.
  destruct (credentials_at s credId) as [cid mid ty ch iss issId at_ vu cidr ah rev]; simpl in *.
  destruct ty, rev, (issuerWasRevokedBeforeIssuance s _); simpl; auto.
  all: destruct (N.ltb_spec (latestQcIssuedAt acc) at_); auto.
  all: specialize (Hle (conj eq_refl eq_refl)); lia.
Qed.

Lemma scan_below (s : State) (B : N) (l : list string) (acc : Scan) :
  latestQcIssuedAt acc < B ->
  (forall credId, credId ∈ l -> eligible_qc (credentials_at s credId) ->
                  Credential.issuedAt (credentials_at s credId) < B) ->
  latestQcIssuedAt (fold_left (scan_credential s) l acc) < B.
Proof.
  revert acc. induction l as [|credId l IH]; intros acc Hacc Hl; simpl; [assumption|].
  apply IH; [|intros; apply Hl; [by right | assumption]].
  destruct (N.lt_ge_cases (latestQcIssuedAt acc) (Credential.issuedAt (credentials_at s credId)))
    as [Hlt|Hge].
  - destruct (decide (eligible_qc (credentials_at s credId))) as [He|Hne].
    + destruct (scan_credential_hit s acc credId He Hlt) as (-> & _). apply Hl; [by left | done].
    + destruct (scan_credential_miss s acc credId) as (-> & _); [tauto | done].
  - destruct (scan_credential_miss s acc credId) as (-> & _); [auto | done].
Qed.

Lemma scan_keep (s : State) (l : list string) (acc : Scan) :
  (forall credId, credId ∈ l -> eligible_qc (credentials_at s credId) ->
                  Credential.issuedAt (credentials_at s credId) <= latestQcIssuedAt acc) ->
  let sc := fold_left (scan_credential s) l acc in
  latestQcIssuedAt sc = latestQcIssuedAt acc
  /\ latestQcValidUntil sc = latestQcValidUntil acc
  /\ latestQcFromRevokedIssuer sc = latestQcFromRevokedIssuer acc.
Proof.
  revert acc. induction l as [|credId l IH]; intros acc Hl; simpl; [auto|].
  destruct (scan_credential_miss s acc credId) as (E1 & E2 & E3).
  { intros. apply Hl; [by left | assumption]. }
  destruct (IH (scan_credential s acc credId)) as (F1 & F2 & F3).
  { intros. rewrite E1. apply Hl; [by right | assumption]. }
  simpl in F1, F2, F3. rewrite F1, F2, F3. auto.
Qed.

(** The loop ends on the credential that is strictly the latest eligible one. *)
Lemma scan_latest (s : State) (l : list string) (i : nat) (credId : string) :
  l !! i = Some credId ->
  eligible_qc (credentials_at s credId) ->
  0 < Credential.issuedAt (credentials_at s credId) ->
  (forall j other, l !! j = Some other -> j <> i -> eligible_qc (credentials_at s other) ->
     Credential.issuedAt (credentials_at s other) < Credential.issuedAt (credentials_at s credId)) ->
  let sc := scan_credentials s l in
  latestQcIssuedAt sc = Credential.issuedAt (credentials_at s credId)
  /\ latestQcValidUntil sc = Credential.validUntil (credentials_at s credId)
  /\ latestQcFromRevokedIssuer sc = issuerWasRevokedBeforeIssuance s (credentials_at s credId).
Proof.
  intros Hi He Hpos Hmax. unfold scan_credentials.
  rewrite <- (take_drop_middle l i credId Hi), fold_left_app. simpl.
  set (acc := fold_left (scan_credential s) (take i l) _).
  assert (Hacc : latestQcIssuedAt acc < Credential.issuedAt (credentials_at s credId)).
  { apply scan_below; [exact Hpos|]. intros other Hin Hel.
    apply list_elem_of_lookup in Hin as [j Hj].
    apply lookup_take_Some in Hj as [Hj Hlt]. apply (Hmax j); [assumption | lia | assumption]. }
  destruct (scan_credential_hit s acc credId He Hacc) as (E1 & E2 & E3).
  destruct (scan_keep s (drop (S i) l) (scan_credential s acc credId)) as (F1 & F2 & F3).
  { intros other Hin Hel. rewrite E1.
    apply list_elem_of_lookup in Hin as [j Hj]. rewrite lookup_drop in Hj.
    apply N.lt_le_incl, (Hmax (S i + j)%nat); [assumption | lia | assumption]. }
  simpl in F1, F2, F3. rewrite F1, F2, F3. auto.
Qed.

Lemma reachable_transact (T : N -> Prop) (s : State) (msg_sender now : N) (c : Call) :
  reachable_under keccak256 T s -> T now ->
  reachable_under keccak256 T (transact keccak256 msg_sender now c s).
Proof.
  intros Hs HT. unfold transact.
  destruct (execute keccak256 msg_sender now c s) eqn:Hex; [|assumption].
  by eapply reachable_call.
Qed.

Lemma reachable_on_chain_reachable (s : State) :
  reachable_on_chain keccak256 s -> reachable keccak256 s.
Proof.
  induction 1; [apply reachable_deploy | by eapply reachable_call].
Qed.

(** *** What [_verifyMaterialAt] reports about the latest QC *)

Lemma verify_reports_expired (s : State) (id : string) (atTime : N) :
  let sc := scan_credentials s (materialCredentials_at s id) in
  latestQcIssuedAt sc <> 0 ->
  latestQcFromRevokedIssuer sc = false ->
  latestQcValidUntil sc < atTime ->
  fst (_verifyMaterialAt id atTime s) = false
  /\ "QC_EXPIRED"%string ∈ snd (_verifyMaterialAt id atTime s).
Proof.
  intros sc H0 Hrev Hexp. unfold _verifyMaterialAt. fold sc.
  apply N.eqb_neq in H0. apply N.leb_gt in Hexp. rewrite H0, Hrev, Hexp. simpl.
  destruct (existsb _ _); simpl; split.
  - rewrite !length_app. simpl. apply Nat.eqb_neq. lia.
  - rewrite !elem_of_app, !list_elem_of_singleton. auto.
  - rewrite !length_app. simpl. apply Nat.eqb_neq. lia.
  - rewrite !elem_of_app, !list_elem_of_singleton. auto.
Qed.

(** ** The claims *)

(** C1. On a chain (block timestamps positive), for an existing material and
    any [atTime]: if the non-revoked QC_MYCO credential issued strictly
    later than every other non-revoked QC_MYCO credential of the material
    has [validUntil < atTime], and its issuer was not revoked at or before
    its issuance, then [verifyMaterialAt] returns [pass = false] with
    QC_EXPIRED among the reasons.  Nothing is assumed of the older QC
    credentials' validity windows: an older one that is still in its
    window is not honoured. *)
Theorem latest_qc_expired_not_bypassed
    (s : State) (id : string) (atTime : N) (i : nat) (c : Credential.t) :
  reachable_on_chain keccak256 s ->
  materialExists_at s id = true ->
  getCredentials id s !! i = Some c ->
  Credential.credType c = QC_MYCO ->
  Credential.revoked c = false ->
  (forall j c', getCredentials id s !! j = Some c' -> j <> i ->
     Credential.credType c' = QC_MYCO -> Credential.revoked c' = false ->
     Credential.issuedAt c' < Credential.issuedAt c) ->
  Credential.validUntil c < atTime ->
  issuerWasRevokedBeforeIssuance s c = false ->
  exists reasons,
    verifyMaterialAt id atTime s = Ok (false, reasons) /\ "QC_EXPIRED"%string ∈ reasons.
Proof.
  intros Hreach Hex Hi Hty Hrev Hmax Hexp Hiss.
  unfold getCredentials in *.
  rewrite list_lookup_fmap in Hi.
  destruct (materialCredentials_at s id !! i) as [credId|] eqn:Hid; [|discriminate].
  simpl in Hi. injection Hi as Hc.
  assert (Hpos : 0 < Credential.issuedAt (credentials_at s credId)).
  { eapply (credentials_timestamped_reachable (fun t => 0 < t)); eauto.
    apply list_elem_of_lookup. eauto. }
  destruct (scan_latest s (materialCredentials_at s id) i credId) as (E1 & E2 & E3);
    try assumption.
  { rewrite Hc. by split. }
  { intros j other Hj Hne [Ht Hr]. rewrite Hc. apply (Hmax j); try assumption.
    rewrite list_lookup_fmap, Hj. reflexivity. }
  destruct (verify_reports_expired s id atTime) as [Hpass Hreason].
  - rewrite E1. lia.
  - rewrite E3, Hc. exact Hiss.
  - rewrite E2, Hc. exact Hexp.
  - unfold verifyMaterialAt, materialMustExist. rewrite Hex. cbn [negb revert_if bind].
    destruct (_verifyMaterialAt id atTime s) as [pass reasons].
    cbn [fst snd] in Hpass, Hreason. subst pass. eauto.
Qed.

(** C5 (as the code has it). In every reachable state and for every
    material: at most one transfer is unaccepted, and an unaccepted
    transfer is the last one of the sequence.  While the latest transfer
    is unaccepted [initiateTransfer] reverts; the ownership and ACTIVE
    guards come first, so the error is MaterialNotFound for an absent
    material, NotMaterialOwner for a caller who is not the owner,
    MaterialNotActive for the owner of a material that is not ACTIVE, and
    PendingTransferExists otherwise.  A successful [acceptTransfer] found
    the latest transfer unaccepted, marks it accepted and rewrites no
    other transfer; afterwards the material has no unaccepted transfer. *)
Theorem single_pending_transfer (s : State) (id : string) :
  reachable keccak256 s ->
  (pending_count (materialTransfers_at s id) <= 1)%nat
  /\ pending_only_last (materialTransfers_at s id)
  /\ (forall x msg_sender now toAddress toOrg shipmentHash,
        last (materialTransfers_at s id) = Some x -> Transfer.accepted x = false ->
        initiateTransfer keccak256 msg_sender now id toAddress toOrg shipmentHash s
        = Revert (if negb (materialExists_at s id) then MaterialNotFound
                  else if negb (Material.owner (materials_at s id) =? msg_sender)
                       then NotMaterialOwner
                  else if negb (bool_decide (Material.status (materials_at s id) = ACTIVE))
                       then MaterialNotActive
                  else PendingTransferExists))
  /\ (forall msg_sender now s',
        acceptTransfer keccak256 msg_sender now id s = Ok s' ->
        exists x, last (materialTransfers_at s id) = Some x
                  /\ Transfer.accepted x = false
                  /\ materialTransfers s'
                     = <[id := <[(length (materialTransfers_at s id) - 1)%nat
                                   := Transfer.set_accepted true x]>
                                 (materialTransfers_at s id)]> (materialTransfers s)
                  /\ (exists x', last (materialTransfers_at s' id) = Some x'
                                  /\ Transfer.accepted x' = true
                                  /\ Transfer.transferId x' = Transfer.transferId x
                                  /\ Transfer.toAddress x' = Transfer.toAddress x)
                  /\ pending_count (materialTransfers_at s' id) = 0%nat).
Proof.
  intros Hreach. destruct (transfers_well_formed_reachable _ _ Hreach) as [Hp _].
  split; [apply pending_only_last_count, Hp|]. split; [apply Hp|]. split.
  - intros x msg_sender now toAddress toOrg shipmentHash Hlast Hx.
    unfold initiateTransfer, onlyMaterialOwner.
    destruct (negb (materialExists_at s id)); [reflexivity|].
    destruct (negb (_ =? msg_sender)); [reflexivity|].
    destruct (negb (bool_decide _)); [reflexivity|].
    cbn [bind revert_if]. rewrite Hlast, Hx. reflexivity.
  - intros msg_sender now s' Hacc. unfold acceptTransfer in Hacc. inv_Ok Hacc.
    set (l := materialTransfers_at s id) in *.
    assert (Hnew : materialTransfers_at s' id
                   = <[(length l - 1)%nat := Transfer.set_accepted true t]> l).
    { subst s'. unfold materialTransfers_at at 1. simpl_state. by rewrite lookup_insert_eq. }
    rewrite Hnew. clear Hnew. subst s'. simpl_state. eexists. split; [reflexivity|].
    split; [by destruct (Transfer.accepted t)|]. split; [reflexivity|].
    assert (Hlen : (0 < length l)%nat) by (destruct l; [discriminate | simpl; lia]).
    split.
    + exists (Transfer.set_accepted true t). rewrite last_lookup, length_insert.
      replace (pred (length l)) with (length l - 1)%nat by lia.
      rewrite list_lookup_insert_eq by lia. by repeat split.
    + unfold pending_count. rewrite filter_pending_nil; [reflexivity|].
      intros i y Hi. destruct (Transfer.accepted y) eqn:Hy; [reflexivity|].
      pose proof (pending_only_last_accept l (Transfer.set_accepted true t) (Hp id) eq_refl
                    i y Hi Hy) as Hend.
      rewrite length_insert in Hend.
      replace i with (length l - 1)%nat in Hi by lia.
      rewrite list_lookup_insert_eq in Hi by lia. injection Hi as <-. discriminate Hy.
Qed.

(** C9. In every reachable state, whatever the status of the material
    (ACTIVE, QUARANTINED or REVOKED): if its latest transfer is unaccepted,
    [acceptTransfer] called by that transfer's [toAddress] succeeds, marks
    the transfer accepted, makes the caller the owner and leaves the status
    as it was.  [initiateTransfer] by the owner, in contrast, reverts with
    MaterialNotActive unless the status is ACTIVE. *)
Theorem accept_transfer_ignores_status (s : State) (id : string) (x : Transfer.t) (now : N) :
  reachable keccak256 s ->
  last (materialTransfers_at s id) = Some x ->
  Transfer.accepted x = false ->
  (exists s',
      acceptTransfer keccak256 (Transfer.toAddress x) now id s = Ok s'
      /\ Material.owner (materials_at s' id) = Transfer.toAddress x
      /\ Material.ownerOrg (materials_at s' id) = Transfer.toOrg x
      /\ Material.status (materials_at s' id) = Material.status (materials_at s id)
      /\ last (materialTransfers_at s' id) = Some (Transfer.set_accepted true x))
  /\ (forall toAddress toOrg shipmentHash,
        Material.status (materials_at s id) <> ACTIVE ->
        initiateTransfer keccak256 (Material.owner (materials_at s id)) now id
          toAddress toOrg shipmentHash s = Revert MaterialNotActive).
Proof.
  intros Hreach Hlast Hx.
  destruct (transfers_well_formed_reachable _ _ Hreach) as [_ He].
  assert (Hex : materialExists_at s id = true).
  { apply He. intros Hnil. rewrite Hnil in Hlast. discriminate. }
  split.
  - unfold acceptTransfer, materialMustExist. rewrite Hex, Hlast, Hx, N.eqb_refl.
    cbn [negb bind revert_if]. eexists. split; [reflexivity|].
    unfold_at. simpl_state. rewrite !lookup_insert_eq. simpl.
    repeat split.
    apply last_Some in Hlast as [l' Hl']. unfold materialTransfers_at in Hl'.
    rewrite Hl', length_app. simpl.
    replace (length l' + 1 - 1)%nat with (length l' + 0)%nat by lia.
    rewrite insert_app_r. simpl. apply last_snoc.
  - intros toAddress toOrg shipmentHash Hst.
    unfold initiateTransfer, onlyMaterialOwner. rewrite Hex, N.eqb_refl.
    cbn [negb bind revert_if]. rewrite bool_decide_eq_false_2 by assumption. reflexivity.
Qed.

(** C10. In every reachable state, [registerMaterial] never reverts with
    MaterialAlreadyExists: the identifier it builds from the incremented
    counter is not the identifier of an existing material.  When it
    succeeds the counter has grown by one, the identifier returned is
    "bio:<kind>:<n>" for the new counter value [n], it did not exist before
    and exists afterwards.  [uint2str] returns for every number, and
    returns different numerals for different numbers. *)
Theorem minted_ids_are_fresh (s : State) (msg_sender now : N)
    (materialType : string) (metadataHash : N) (ownerOrg : string) :
  reachable keccak256 s ->
  registerMaterial keccak256 msg_sender now materialType metadataHash ownerOrg s
    <> Revert MaterialAlreadyExists
  /\ (forall s' id,
        registerMaterial keccak256 msg_sender now materialType metadataHash ownerOrg s
          = Ok (s', id) ->
        materialExists_at s id = false
        /\ materialExists_at s' id = true
        /\ materialCount s' = materialCount s + 1
        /\ minted_id (materialCount s') id
        /\ uint2str (materialCount s') = Ok (decimal (materialCount s')))
  /\ (forall a b, uint2str a = uint2str b -> a = b).
Proof.
  intros Hreach. pose proof (ids_minted_reachable _ _ Hreach) as Hids.
  assert (Hfresh : forall typePrefix,
             typePrefix = "cell_line"%string \/ typePrefix = "plasmid"%string ->
             materialExists_at s ("bio:" +:+ typePrefix +:+ ":" +:+ decimal (materialCount s + 1))
             = false).
  { intros p Hp. destruct (materialExists_at s _) eqn:Hex; [|reflexivity].
    destruct (Hids _ Hex) as (q & n & Hq & Hn & Heq).
    apply minted_suffix_inj, decimal_inj in Heq; try assumption. lia. }
  assert (Hprefix : forall h : N,
             (if h =? CELL_LINE_HASH keccak256 then "cell_line"%string else "plasmid"%string)
             = "cell_line"%string
             \/ (if h =? CELL_LINE_HASH keccak256 then "cell_line"%string else "plasmid"%string)
                = "plasmid"%string).
  { intros h. destruct (_ =? _); auto. }
  split; [|split].
  - unfold registerMaterial.
    destruct (negb _ && negb _); [discriminate|].
    destruct (metadataHash =? 0); [discriminate|].
    unfold checked_inc. destruct (_ <? _); [|discriminate].
    cbn [bind revert_if]. rewrite bind_uint2str. simpl_state.
    pose proof (Hfresh _ (Hprefix (keccak256 materialType))) as Hf.
    unfold materialExists_at in *. simpl_state. rewrite Hf. discriminate.
  - intros s' id Hok. unfold registerMaterial in Hok. inv_Ok Hok. subst s' id.
    unfold materialExists_at in *. simpl_state. rewrite lookup_insert_eq.
    split; [exact Hc2|]. split; [reflexivity|]. split; [reflexivity|]. split.
    + eexists _, _. split; [apply Hprefix|]. split; [|reflexivity]. lia.
    + apply uint2str_spec.
  - apply uint2str_inj.
Qed.

(** *** History bookkeeping *)

Lemma history_total_push (m : gmap string (list N)) (id : string) (h : N) :
  map_fold (fun (_ : string) (l : list N) (n : nat) => (length l + n)%nat) 0%nat
    (<[id := default [] (m !! id) ++ [h]]> m)
  = S (map_fold (fun (_ : string) (l : list N) (n : nat) => (length l + n)%nat) 0%nat m).
Proof.
  destruct (m !! id) as [old|] eqn:Hid; simpl.
  - rewrite <- (insert_delete_eq m id).
    rewrite map_fold_insert_L; [|intros; lia | apply lookup_delete_eq].
    rewrite (map_fold_delete_L _ _ id old m); [|intros; lia | assumption].
    rewrite length_app. simpl. lia.
  - rewrite map_fold_insert_L; [|intros; lia | assumption]. simpl. lia.
Qed.

(** C6 (as the code has it). [setStatusByOwner] with REVOKED as the new
    status reverts for every caller, material and reason hash, and the
    transaction leaves the state as it was.  The error is
    NotAuthorizedForStatus when the caller owns the material; the ownership
    modifier runs first, so an absent material gives MaterialNotFound and a
    caller who is not the owner gives NotMaterialOwner. *)
Theorem owner_cannot_revoke (s : State) (msg_sender now : N) (id : string) (reasonHash : N) :
  setStatusByOwner keccak256 msg_sender now id REVOKED reasonHash s
  = Revert (if negb (materialExists_at s id) then MaterialNotFound
            else if negb (Material.owner (materials_at s id) =? msg_sender)
                 then NotMaterialOwner
            else NotAuthorizedForStatus)
  /\ transact keccak256 msg_sender now (SetStatusByOwner id REVOKED reasonHash) s = s.
Proof.
  assert (H : setStatusByOwner keccak256 msg_sender now id REVOKED reasonHash s
              = Revert (if negb (materialExists_at s id) then MaterialNotFound
                        else if negb (Material.owner (materials_at s id) =? msg_sender)
                             then NotMaterialOwner
                        else NotAuthorizedForStatus)).
  { unfold setStatusByOwner, onlyMaterialOwner.
    destruct (negb (materialExists_at s id)); [reflexivity|].
    destruct (negb (_ =? msg_sender)); reflexivity. }
  split; [exact H|]. unfold transact. cbn [execute]. rewrite H. reflexivity.
Qed.

(** C7 (as the code has it). A call that reverts leaves the whole state,
    history included, as it was.  A successful call of one of the seven
    functions that act on a material (registerMaterial, issueCredential,
    revokeCredential, setStatusByOwner, setStatusByAuthority,
    initiateTransfer, acceptTransfer) pushes exactly one entry on the
    history of the material concerned -- the material named by the call,
    the material created by registerMaterial, the material of the
    credential for revokeCredential: that history is the old one with one
    entry at its end, the history of every other material is as before,
    and the number of history entries grows by one.  A successful
    authorizeIssuer or revokeIssuer leaves the history untouched. *)
Theorem history_effect_of_calls (s : State) (msg_sender now : N) (c : Call) :
  match execute keccak256 msg_sender now c s with
  | Ok s' =>
      if issuer_call c
      then materialHistory s' = materialHistory s /\ history_total s' = history_total s
      else exists id,
          material_concerned keccak256 msg_sender now c s = Some id
          /\ appends_one_entry id s s'
          /\ (exists h, materialHistory_at s' id = materialHistory_at s id ++ [h])
          /\ (forall other, other <> id ->
                materialHistory_at s' other = materialHistory_at s other)
          /\ history_total s' = S (history_total s)
  | Revert _ => transact keccak256 msg_sender now c s = s
  end.
Proof.
  destruct (execute keccak256 msg_sender now c s) as [s'|e] eqn:Hex.
  - assert (Hone : forall id h,
               materialHistory s' = <[id := materialHistory_at s id ++ [h]]> (materialHistory s) ->
               appends_one_entry id s s'
               /\ (exists h, materialHistory_at s' id = materialHistory_at s id ++ [h])
               /\ (forall other, other <> id ->
                     materialHistory_at s' other = materialHistory_at s other)
               /\ history_total s' = S (history_total s)).
    { intros id h Hpush. split; [by exists h|]. split; [|split].
      - exists h. unfold materialHistory_at at 1. by rewrite Hpush, lookup_insert_eq.
      - intros other Hne. unfold materialHistory_at at 1.
        by rewrite Hpush, lookup_insert_ne.
      - unfold history_total. rewrite Hpush. apply history_total_push. }
    destruct c; cbn [issuer_call material_concerned execute] in *.
    + unfold authorizeIssuer in Hex. inv_Ok Hex. subst s'. by simpl_state.
    + unfold revokeIssuer in Hex. inv_Ok Hex. subst s'. by simpl_state.
    + apply drop_result_Ok in Hex as [id Hex]. rewrite Hex. exists id.
      split; [reflexivity|]. unfold registerMaterial in Hex.
      inv_Ok Hex; subst; eapply Hone; simpl_state; unfold_at; simpl_state; reflexivity.
    + exists materialId. split; [reflexivity|]. unfold setStatusByOwner in Hex.
      inv_Ok Hex; subst; eapply Hone; simpl_state; unfold_at; simpl_state; reflexivity.
    + exists materialId. split; [reflexivity|]. unfold setStatusByAuthority in Hex.
      inv_Ok Hex; subst; eapply Hone; simpl_state; unfold_at; simpl_state; reflexivity.
    + apply drop_result_Ok in Hex as [ret Hex]. exists materialId.
      split; [reflexivity|]. unfold issueCredential in Hex.
      inv_Ok Hex; subst; eapply Hone; simpl_state; unfold_at; simpl_state; reflexivity.
    + eexists. split; [reflexivity|]. unfold revokeCredential in Hex.
      inv_Ok Hex; subst; eapply Hone; simpl_state; unfold_at; simpl_state; reflexivity.
    + apply drop_result_Ok in Hex as [ret Hex]. exists materialId.
      split; [reflexivity|]. unfold initiateTransfer in Hex.
      inv_Ok Hex; subst; eapply Hone; simpl_state; unfold_at; simpl_state; reflexivity.
    + exists materialId. split; [reflexivity|]. unfold acceptTransfer in Hex.
      inv_Ok Hex; subst; eapply Hone; simpl_state; unfold_at; simpl_state; reflexivity.
  - unfold transact. rewrite Hex. reflexivity.
Qed.

(** C8 (as the code has it). When an approved, non-revoked issuer lacks
    the capability for the requested credential type, [issueCredential]
    reverts.  The capability check comes after the material and input
    checks, so the error is NotAuthorizedForCredentialType only for an
    existing material, non-zero hashes and an acceptable [validUntil];
    otherwise it is the error of the first of those checks that fails. *)
Theorem capability_checked_after_inputs (s : State) (msg_sender now : N)
    (materialId : string) (credType : CredentialType) (commitmentHash validUntil : N)
    (artifactCid : string) (artifactHash : N) (issuerId : string) :
  IssuerPermission.isApproved (issuerPermissions_at s msg_sender) = true ->
  issuerRevokedAt_at s msg_sender = 0 ->
  has_capability (issuerPermissions_at s msg_sender) credType = false ->
  issueCredential keccak256 msg_sender now materialId credType commitmentHash validUntil
    artifactCid artifactHash issuerId s
  = Revert (if negb (materialExists_at s materialId) then MaterialNotFound
            else if commitmentHash =? 0 then InvalidCommitmentHash
            else if artifactHash =? 0 then InvalidArtifactHash
            else if negb (validUntil =? 0) && (validUntil <=? now) then InvalidValidUntil
            else NotAuthorizedForCredentialType).
Proof.
  intros Happ Hrev Hcap. unfold issueCredential, onlyApprovedIssuer, materialMustExist.
  rewrite Happ, Hrev. cbn [negb N.eqb bind revert_if].
  destruct (negb (materialExists_at s materialId)); [reflexivity|].
  destruct (commitmentHash =? 0); [reflexivity|].
  destruct (artifactHash =? 0); [reflexivity|].
  destruct (negb (validUntil =? 0) && (validUntil <=? now)); [reflexivity|].
  cbn [bind revert_if]. destruct credType; simpl in Hcap; rewrite Hcap; reflexivity.
Qed.

(** *** Side facts around the claims that fail on the code *)

(** The boundary of issuer revocation, as the loop computes it. *)
Lemma issuerWasRevokedBeforeIssuance_true (s : State) (c : Credential.t) :
  issuerWasRevokedBeforeIssuance s c = true <->
  issuerRevokedAt_at s (Credential.issuer c) <> 0
  /\ issuerRevokedAt_at s (Credential.issuer c) <= Credential.issuedAt c.
Proof.
  unfold issuerWasRevokedBeforeIssuance.
  rewrite andb_true_iff, negb_true_iff, N.eqb_neq, N.leb_le. reflexivity.
Qed.

Lemma hasIdentity_scan_credential (s : State) (acc : Scan) (credId : string) :
  hasIdentity (scan_credential s acc credId)
  = hasIdentity acc || valid_identity s (credentials_at s credId).
Proof.
  unfold scan_credential, valid_identity.
  destruct (bool_decide (_ = IDENTITY) && _ && _); simpl;
    destruct (bool_decide (_ = QC_MYCO) && _); simpl;
    try destruct (_ <? _); simpl; rewrite ?orb_true_r, ?orb_false_r; reflexivity.
Qed.

(** The identity check: some credential of the list is a non-revoked
    IDENTITY whose issuer was not revoked at or before its issuance. *)
Lemma hasIdentity_scan_credentials (s : State) (l : list string) :
  hasIdentity (scan_credentials s l) = existsb (fun credId => valid_identity s (credentials_at s credId)) l.
Proof.
  unfold scan_credentials.
  change (existsb _ l) with
    (hasIdentity (mkScan false 0 0 false)
     || existsb (fun credId => valid_identity s (credentials_at s credId)) l).
  generalize (mkScan false 0 0 false). induction l as [|credId l IH]; intros acc; simpl.
  - by rewrite orb_false_r.
  - rewrite IH, hasIdentity_scan_credential, orb_assoc. reflexivity.
Qed.

(** Once the admin has revoked an issuer, that issuer's [issueCredential]
    stops at the approval test of the modifier. *)
Lemma revoked_issuer_cannot_issue (s s' : State) (msg_sender now issuer : N) :
  revokeIssuer msg_sender now issuer s = Ok s' ->
  forall now' materialId credType commitmentHash validUntil artifactCid artifactHash issuerId,
    issueCredential keccak256 issuer now' materialId credType commitmentHash validUntil
      artifactCid artifactHash issuerId s' = Revert NotApprovedIssuer.
Proof.
  intros Hrev. unfold revokeIssuer in Hrev. inv_Ok Hrev. subst s'. intros.
  unfold issueCredential, onlyApprovedIssuer, issuerPermissions_at. simpl_state.
  rewrite lookup_insert_eq. reflexivity.
Qed.

(** Storage holds a material only under an identifier that exists. *)
Lemma materials_of_existing_reachable (T : N -> Prop) (s : State) :
  reachable_under keccak256 T s -> materials_of_existing s.
Proof.
  induction 1 as [deployer | s s' sender now c Hs IH HT Hex].
  - intros id m. simpl. rewrite lookup_empty. discriminate.
  - unfold materials_of_existing in *.
    exec_cases Hex c; try exact IH; intros id0 m0;
      rewrite ?default_lookup_insert, lookup_insert;
      destruct (decide (_ = id0)) as [<-|Hne]; try apply IH.
    all: intros _; try reflexivity; by destruct (default false _).
Qed.

(** Of all the calls, only [setStatusByAuthority] on that very material
    takes a material out of REVOKED. *)
Lemma revoked_left_only_by_authority (s s' : State) (msg_sender now : N) (c : Call)
    (id : string) :
  reachable keccak256 s ->
  Material.status (materials_at s id) = REVOKED ->
  execute keccak256 msg_sender now c s = Ok s' ->
  Material.status (materials_at s' id) <> REVOKED ->
  exists newStatus reasonHash, c = SetStatusByAuthority id newStatus reasonHash.
Proof.
  intros Hreach Hst Hex Hout.
  pose proof (materials_of_existing_reachable _ _ Hreach) as Hme.
  unfold materials_of_existing in Hme.
  exec_cases Hex c; try (by exfalso);
    rewrite ?default_lookup_insert in Hout;
    destruct (decide (_ = id)) as [<-|Hne]; try (by exfalso); try (by eauto).
  - (* registerMaterial: the minted identifier held no material *)
    exfalso. destruct (materials s !! _) as [m|] eqn:Hm; [|discriminate Hst].
    apply Hme in Hm. unfold materialExists_at in Hc2. simpl_state. congruence.
  - (* setStatusByOwner refuses a REVOKED material *)
    exfalso. rewrite Hst in Hc2. discriminate.
Qed.

(** The owner's function refuses every change of a REVOKED material ... *)
Lemma setStatusByOwner_revoked_reverts (s : State) (msg_sender now : N) (id : string)
    (newStatus : MaterialStatus) (reasonHash : N) :
  Material.status (materials_at s id) = REVOKED ->
  exists e, setStatusByOwner keccak256 msg_sender now id newStatus reasonHash s = Revert e.
Proof.
  intros Hst. unfold setStatusByOwner, onlyMaterialOwner.
  destruct (negb (materialExists_at s id)); [by eexists|].
  destruct (negb (_ =? msg_sender)); [by eexists|].
  destruct (bool_decide (newStatus = REVOKED)); [by eexists|].
  cbn [bind revert_if]. rewrite Hst. by eexists.
Qed.

(** ... while the authority's function writes the new status whatever the
    old one was. *)
Lemma setStatusByAuthority_overwrites (s : State) (now : N) (id : string)
    (newStatus : MaterialStatus) (reasonHash : N) :
  materialExists_at s id = true ->
  exists s', setStatusByAuthority keccak256 (admin s) now id newStatus reasonHash s = Ok s'
             /\ Material.status (materials_at s' id) = newStatus.
Proof.
  intros Hex. unfold setStatusByAuthority, materialMustExist.
  rewrite Hex, N.eqb_refl. cbn [negb orb bind revert_if]. eexists. split; [reflexivity|].
  unfold materials_at. simpl_state. by rewrite lookup_insert_eq.
Qed.

(** QC_EXPIRED is decided by [validUntil < atTime] alone; a [validUntil]
    of 0 gets no other treatment. *)
Lemma verify_reports_expired_when_zero (s : State) (id : string) (atTime : N) :
  let sc := scan_credentials s (materialCredentials_at s id) in
  latestQcIssuedAt sc <> 0 ->
  latestQcFromRevokedIssuer sc = false ->
  latestQcValidUntil sc = 0 ->
  0 < atTime ->
  "QC_EXPIRED"%string ∈ snd (_verifyMaterialAt id atTime s).
Proof.
  intros sc H0 Hrev Hvu Hat. apply verify_reports_expired; [assumption | assumption |].
  fold sc. rewrite Hvu. exact Hat.
Qed.

(** ** Further properties of the contract *)

(** *** Reading the history *)

Lemma slice_loop_spec (history : list N) (offset end_ i : N) (slice : list N) :
  offset <= i -> i <= end_ -> end_ <= N.of_nat (length history) ->
  length slice = N.to_nat (end_ - offset) ->
  slice_loop history offset end_ i slice
  = Ok (take (N.to_nat (i - offset)) slice
        ++ take (N.to_nat (end_ - i)) (drop (N.to_nat i) history)).
Proof.
  funelim (slice_loop history offset end_ i slice); intros Hoi Hie Hel Hlen.
  - destruct (history !! N.to_nat i) as [h|] eqn:Hh.
    2: { apply lookup_ge_None in Hh. lia. }
    destruct (N.ltb_spec i offset) as [?|_]; [lia|].
    destruct (Nat.ltb_spec (N.to_nat (i - offset)) (length slice)) as [Hlt|?]; [|lia].
    rewrite H by (rewrite ?length_insert; lia). f_equal.
    replace (N.to_nat (i + 1 - offset)) with (S (N.to_nat (i - offset))) by lia.
    erewrite take_S_r by (apply list_lookup_insert_eq; lia).
    rewrite take_insert_ge by lia. rewrite <- app_assoc. f_equal.
    replace (N.to_nat (end_ - i)) with (S (N.to_nat (end_ - (i + 1)))) by lia.
    replace (N.to_nat (i + 1)) with (S (N.to_nat i)) by lia.
    rewrite (drop_S history h (N.to_nat i) Hh). reflexivity.
  - assert (i = end_) as -> by lia.
    rewrite N.sub_diag. simpl. rewrite app_nil_r.
    rewrite take_ge by lia. reflexivity.
Qed.

Lemma getHistorySlice_window (s : State) (id : string) (offset limit : N) :
  offset + limit <= MAX_UINT256 ->
  getHistorySlice id offset limit s
  = Ok (take (N.to_nat limit) (drop (N.to_nat offset) (materialHistory_at s id))).
Proof.
  intros Hsum. unfold getHistorySlice, checked_add.
  set (history := materialHistory_at s id).
  destruct (N.leb_spec (N.of_nat (length history)) offset) as [Hge|Hlt].
  { rewrite drop_ge by lia. by rewrite take_nil. }
  destruct (N.leb_spec (offset + limit) MAX_UINT256) as [_|?]; [|lia].
  cbn [bind].
  destruct (N.ltb_spec (N.of_nat (length history)) (offset + limit)) as [Hclamp|Hfit].
  - rewrite slice_loop_spec by (rewrite ?length_replicate; lia).
    rewrite N.sub_diag. simpl.
    rewrite !take_ge by (rewrite length_drop; lia). reflexivity.
  - rewrite slice_loop_spec by (rewrite ?length_replicate; lia).
    rewrite N.sub_diag. simpl. do 2 f_equal. lia.
Qed.

(** X1. When [offset + limit] fits in a [uint256], [getHistorySlice] returns the
    window of the material's history that starts at [offset] and has at
    most [limit] entries: entry [j] of the page is entry [offset + j] of the
    history, the page has [min limit (len - offset)] entries, and it is
    empty when [offset] is at or past the end. *)
Theorem getHistorySlice_page (s : State) (id : string) (offset limit : N) :
  offset + limit <= MAX_UINT256 ->
  exists page,
    getHistorySlice id offset limit s = Ok page
    /\ N.of_nat (length page) = N.min limit (getHistoryCount id s - offset)
    /\ (forall j, (j < length page)%nat ->
          page !! j = materialHistory_at s id !! (N.to_nat offset + j)%nat)
    /\ (getHistoryCount id s <= offset -> page = []).
Proof.
  intros Hsum. eexists. split; [by apply getHistorySlice_window|].
  unfold getHistoryCount. split; [|split].
  - rewrite length_take, length_drop. lia.
  - intros j Hj. rewrite length_take in Hj.
    rewrite lookup_take_lt by lia. apply lookup_drop.
  - intros Hge. rewrite drop_ge by lia. apply take_nil.
Qed.

(** X2. [getHistorySlice] adds [offset] and [limit] with checked
    arithmetic before it clamps to the length: when [offset] is inside the
    history and [offset + limit] exceeds the largest [uint256], the call
    panics instead of returning the rest of the history. *)
Theorem getHistorySlice_overflow (s : State) (id : string) (offset limit : N) :
  offset < getHistoryCount id s ->
  MAX_UINT256 < offset + limit ->
  getHistorySlice id offset limit s = Revert Panic.
Proof.
  unfold getHistoryCount, getHistorySlice, checked_add. intros Hin Hover.
  destruct (N.leb_spec (N.of_nat (length (materialHistory_at s id))) offset); [lia|].
  destruct (N.leb_spec (offset + limit) MAX_UINT256); [lia|]. reflexivity.
Qed.

(** X3. Pages compose: a page of [p] entries at [offset] followed by a page
    of [q] entries at [offset + p] is the page of [p + q] entries at
    [offset]. *)
Theorem getHistorySlice_pages_compose (s : State) (id : string) (offset p q : N) :
  offset + p + q <= MAX_UINT256 ->
  exists first second,
    getHistorySlice id offset p s = Ok first
    /\ getHistorySlice id (offset + p) q s = Ok second
    /\ getHistorySlice id offset (p + q) s = Ok (first ++ second).
Proof.
  intros Hsum. eexists _, _.
  rewrite !getHistorySlice_window by lia. repeat split. f_equal.
  replace (N.to_nat (p + q)) with (N.to_nat p + N.to_nat q)%nat by lia.
  replace (N.to_nat (offset + p)) with (N.to_nat offset + N.to_nat p)%nat by lia.
  rewrite <- drop_drop. symmetry. apply take_take_drop.
Qed.

Lemma execute_history_prefix (s s' : State) (msg_sender now : N) (c : Call) (id : string) :
  execute keccak256 msg_sender now c s = Ok s' ->
  materialHistory_at s id `prefix_of` materialHistory_at s' id.
Proof.
  intros Hex. exec_cases Hex c; try reflexivity;
    rewrite default_lookup_insert; destruct (decide (_ = id)) as [<-|Hne];
    try reflexivity; by apply prefix_app_r.
Qed.

Lemma evolves_history_prefix (s s' : State) (id : string) :
  evolves keccak256 s s' ->
  materialHistory_at s id `prefix_of` materialHistory_at s' id.
Proof.
  induction 1 as [s | s s1 s2 sender now c _ IH Hex]; [reflexivity|].
  etrans; [exact IH | by eapply execute_history_prefix].
Qed.

(** X4. The history of a material is append-only: whatever calls follow,
    the entries already there stay where they are.  An index that
    [getHistoryAt] answers keeps its answer, and [getHistoryCount] never
    decreases. *)
Theorem history_is_append_only (s s' : State) (id : string) :
  evolves keccak256 s s' ->
  (forall index h, getHistoryAt id index s = Ok h -> getHistoryAt id index s' = Ok h)
  /\ getHistoryCount id s <= getHistoryCount id s'.
Proof.
  intros Hev. pose proof (evolves_history_prefix s s' id Hev) as Hpre.
  pose proof (prefix_length _ _ Hpre) as Hlen. split.
  - intros index h. unfold getHistoryAt.
    destruct (N.leb_spec (N.of_nat (length (materialHistory_at s id))) index); [discriminate|].
    destruct (N.leb_spec (N.of_nat (length (materialHistory_at s' id))) index); [lia|].
    cbn [bind revert_if].
    destruct (materialHistory_at s id !! N.to_nat index) as [h0|] eqn:Hh; [|discriminate].
    intros [= <-]. by rewrite (prefix_lookup_Some _ _ _ _ Hh Hpre).
  - unfold getHistoryCount. lia.
Qed.

(** X5. For every index: [getHistoryAt] answers exactly the indices below
    [getHistoryCount] and reverts with InvalidHistoryIndex for every other
    index.  [getHistorySlice] with [limit = 1] returns an empty page,
    without reverting, for the latter, and for the former the same single
    entry whenever the length of the history fits in a [uint256], as the
    length of a storage array does. *)
Theorem getHistoryAt_bounds (s : State) (id : string) (index : N) :
  (index < getHistoryCount id s ->
     exists h, materialHistory_at s id !! N.to_nat index = Some h
               /\ getHistoryAt id index s = Ok h
               /\ (getHistoryCount id s <= MAX_UINT256 ->
                   getHistorySlice id index 1 s = Ok [h]))
  /\ (getHistoryCount id s <= index ->
       getHistoryAt id index s = Revert InvalidHistoryIndex
       /\ getHistorySlice id index 1 s = Ok []).
Proof.
  unfold getHistoryCount, getHistoryAt. split.
  - intros Hin. destruct (materialHistory_at s id !! N.to_nat index) as [h|] eqn:Hh.
    2: { apply lookup_ge_None in Hh. lia. }
    exists h. split; [reflexivity|].
    destruct (N.leb_spec (N.of_nat (length (materialHistory_at s id))) index); [lia|].
    split; [reflexivity|]. intros Hlen.
    rewrite getHistorySlice_window by lia. by rewrite (drop_S _ _ _ Hh).
  - intros Hout. unfold getHistorySlice.
    destruct (N.leb_spec (N.of_nat (length (materialHistory_at s id))) index); [|lia].
    split; reflexivity.
Qed.


(** *** The stores of reachable states *)

Lemma store_consistent_deploy (deployer : N) : store_consistent (constructor deployer).
Proof.
  split; unfold_at; simpl; intros *; rewrite ?lookup_empty; simpl; try done.
  - intros Hin. by apply not_elem_of_nil in Hin.
  - apply NoDup_nil_2.
Qed.

Lemma minted_credential_id_mono (a b : N) (k : string) :
  a <= b -> minted_credential_id a k -> minted_credential_id b k.
Proof. intros Hab (n & Hn & ->). exists n. split; [lia | reflexivity]. Qed.

Lemma cred_prefix_inj (x y : string) : "cred:" +:+ x = "cred:" +:+ y -> x = y.
Proof. cbv [String.append]. congruence. Qed.

Lemma step_sc_flags (s s' : State) (msg_sender now : N) (c : Call) :
  store_consistent s -> execute keccak256 msg_sender now c s = Ok s' ->
  forall id b, materialExists s' !! id = Some b -> b = true.
Proof.
  intros Hs Hex. pose proof (sc_flags s Hs) as IH. clear Hs.
  exec_cases Hex c; try exact IH.
  intros id b. rewrite lookup_insert. case_decide; [congruence | apply IH].
Qed.

Lemma step_sc_count (s s' : State) (msg_sender now : N) (c : Call) :
  store_consistent s -> execute keccak256 msg_sender now c s = Ok s' ->
  size (materialExists s') = N.to_nat (materialCount s').
Proof.
  intros Hs Hex. pose proof (sc_count s Hs) as IH. pose proof (sc_flags s Hs) as Hfl. clear Hs.
  exec_cases Hex c; try exact IH.
  rewrite map_size_insert_None; [lia|].
  destruct (materialExists s !! _) as [b|] eqn:Hb; [|reflexivity].
  rewrite (Hfl _ _ Hb) in Hc2. discriminate.
Qed.

Lemma step_sc_materials (s s' : State) (msg_sender now : N) (c : Call) :
  store_consistent s -> execute keccak256 msg_sender now c s = Ok s' ->
  forall id, materialExists_at s' id = true ->
    exists m, materials s' !! id = Some m /\ Material.materialId m = id.
Proof.
  intros Hs Hex. pose proof (sc_materials s Hs) as IH. clear Hs.
  unfold materialExists_at in IH.
  exec_cases Hex c; try exact IH; intros id0; rewrite ?default_lookup_insert, lookup_insert;
    destruct (decide (_ = id0)) as [<-|Hne]; try apply IH; intros Hid; try (by eauto).
  all: match goal with
       | H : negb (default false (materialExists _ !! ?k)) = false |- _ =>
           destruct (IH k) as (m & Hm & Hmid); [by destruct (default false _)|]
       end; rewrite Hm; simpl; eauto.
Qed.

Lemma step_sc_cred_lists (s s' : State) (msg_sender now : N) (c : Call) :
  store_consistent s -> execute keccak256 msg_sender now c s = Ok s' ->
  forall id, materialCredentials_at s' id <> [] -> materialExists_at s' id = true.
Proof.
  intros Hs Hex. pose proof (sc_cred_lists s Hs) as IH. clear Hs.
  unfold materialExists_at, materialCredentials_at in IH.
  exec_cases Hex c; try exact IH; intros id0; rewrite ?default_lookup_insert;
    destruct (decide (_ = id0)) as [<-|Hne]; try apply IH; intros _;
    try reflexivity; by destruct (default false _).
Qed.

Lemma stored_credential_lookup (s : State) (credId : string) :
  Nat.eqb (String.length (Credential.credentialId (credentials_at s credId))) 0 = false ->
  credentials s !! credId = Some (credentials_at s credId).
Proof.
  unfold credentials_at. destruct (credentials s !! credId); [reflexivity | discriminate].
Qed.

Lemma store_credential_material_exists (s : State) (k : string) (c : Credential.t) :
  store_consistent s -> credentials s !! k = Some c ->
  materialExists_at s (Credential.materialId c) = true.
Proof.
  intros Hs Hk. apply (sc_cred_lists s Hs).
  destruct (sc_stored s Hs k c Hk) as (_ & _ & Hin & _).
  intros Hnil. rewrite Hnil in Hin. by apply not_elem_of_nil in Hin.
Qed.

Lemma snoc_not_nil {A} (l : list A) (x : A) : l ++ [x] <> [].
Proof. by destruct l. Qed.

Lemma step_sc_history (s s' : State) (msg_sender now : N) (c : Call) :
  store_consistent s -> execute keccak256 msg_sender now c s = Ok s' ->
  forall id, materialHistory_at s' id <> [] <-> materialExists_at s' id = true.
Proof.
  intros Hs Hex. pose proof (sc_history s Hs) as IH.
  pose proof (store_credential_material_exists s) as Hcm. specialize (fun k c => Hcm k c Hs).
  pose proof (stored_credential_lookup s) as Hlk. clear Hs.
  unfold materialExists_at, materialHistory_at, credentials_at in *.
  exec_cases Hex c; try exact IH; intros id0; rewrite ?default_lookup_insert;
    destruct (decide (_ = id0)) as [<-|Hne]; try apply IH;
    (split; [intros _ | intros _; apply snoc_not_nil]); try reflexivity;
    try (by destruct (default false _)).
  (* revokeCredential: the credential is stored, so its material exists *)
  apply Hlk in Hc. by apply Hcm in Hc.
Qed.

Lemma minted_credential_id_fresh (count : N) :
  ~ minted_credential_id count ("cred:" +:+ decimal (count + 1)).
Proof.
  intros (n & Hn & Heq). apply cred_prefix_inj, decimal_inj in Heq. lia.
Qed.

Lemma step_sc_stored (s s' : State) (msg_sender now : N) (c : Call) :
  store_consistent s -> execute keccak256 msg_sender now c s = Ok s' ->
  forall k cr, credentials s' !! k = Some cr ->
    Credential.credentialId cr = k
    /\ minted_credential_id (credentialCount s') k
    /\ k ∈ materialCredentials_at s' (Credential.materialId cr)
    /\ Credential.commitmentHash cr <> 0
    /\ Credential.artifactHash cr <> 0.
Proof.
  intros Hs Hex. pose proof (sc_stored s Hs) as IH.
  pose proof (stored_credential_lookup s) as Hlk. clear Hs.
  unfold materialCredentials_at, credentials_at in *.
  exec_cases Hex c; try exact IH; intros k cr; rewrite lookup_insert;
    destruct (decide (_ = k)) as [<-|Hne].
  (* issueCredential, the new credential *)
  1,3,5: intros [= <-]; simpl; rewrite default_lookup_insert, decide_True by reflexivity;
    apply N.eqb_neq in Hc2, Hc3;
    (split; [reflexivity|]); (split; [eexists; split; [|reflexivity]; lia|]);
    (split; [apply elem_of_app; right; by apply list_elem_of_singleton|]); by split.
  (* issueCredential, an older credential *)
  1-3: intros Hk; destruct (IH _ _ Hk) as (E1 & E2 & E3 & E4 & E5);
    (split; [assumption|]); (split; [eapply minted_credential_id_mono; [|eassumption]; lia|]);
    (split; [|by split]); rewrite default_lookup_insert;
    destruct (decide (_ = _)) as [Heq|?];
    [rewrite <- Heq in E3; apply elem_of_app; by left | assumption].
  (* revokeCredential *)
  - apply Hlk in Hc. intros [= <-]. simpl. by apply IH.
  - apply IH.
Qed.

Lemma listed_credential_not_next (s : State) (id credId : string) :
  store_consistent s -> credId ∈ materialCredentials_at s id ->
  credId <> "cred:" +:+ decimal (credentialCount s + 1).
Proof.
  intros Hs Hin ->. destruct (sc_listed s Hs _ _ Hin) as (c & Hc & _).
  destruct (sc_stored s Hs _ _ Hc) as (_ & Hm & _).
  by apply minted_credential_id_fresh in Hm.
Qed.

Lemma step_sc_listed (s s' : State) (msg_sender now : N) (c : Call) :
  store_consistent s -> execute keccak256 msg_sender now c s = Ok s' ->
  forall id credId, credId ∈ materialCredentials_at s' id ->
    exists cr, credentials s' !! credId = Some cr /\ Credential.materialId cr = id.
Proof.
  intros Hs Hex. pose proof (sc_listed s Hs) as IH.
  pose proof (listed_credential_not_next s) as Hnext. specialize (fun i k => Hnext i k Hs).
  clear Hs. unfold materialCredentials_at, credentials_at in *.
  exec_cases Hex c; try exact IH; intros id0 credId0;
    rewrite ?default_lookup_insert, lookup_insert.
  (* issueCredential *)
  1-3: destruct (decide (_ = id0)) as [<-|Hid];
    [rewrite elem_of_app, list_elem_of_singleton; intros [Hin | ->];
       [|rewrite decide_True by reflexivity; by eauto]
    |intros Hin];
    (destruct (decide (_ = credId0)) as [<-|Hne];
       [by apply Hnext in Hin | by apply IH]).
  (* revokeCredential *)
  intros Hin. destruct (IH _ _ Hin) as (cr & Hcr & Hm).
  destruct (decide (_ = credId0)) as [<-|Hne]; [|by eauto].
  rewrite Hcr. simpl. by eauto.
Qed.

Lemma step_sc_nodup (s s' : State) (msg_sender now : N) (c : Call) :
  store_consistent s -> execute keccak256 msg_sender now c s = Ok s' ->
  forall id, NoDup (materialCredentials_at s' id).
Proof.
  intros Hs Hex. pose proof (sc_nodup s Hs) as IH.
  pose proof (listed_credential_not_next s) as Hnext. specialize (fun i k => Hnext i k Hs).
  clear Hs. unfold materialCredentials_at in *.
  exec_cases Hex c; try exact IH; intros id0; rewrite default_lookup_insert;
    destruct (decide (_ = id0)) as [<-|Hid]; try apply IH;
    apply NoDup_app; (split; [apply IH|]);
    (split; [|apply NoDup_singleton]);
    intros k Hin ->%list_elem_of_singleton; by apply Hnext in Hin.
Qed.

Lemma step_sc_approved (s s' : State) (msg_sender now : N) (c : Call) :
  store_consistent s -> execute keccak256 msg_sender now c s = Ok s' ->
  forall a, IssuerPermission.isApproved (issuerPermissions_at s' a) = true ->
    issuerRevokedAt_at s' a = 0.
Proof.
  intros Hs Hex. pose proof (sc_approved s Hs) as IH. clear Hs.
  unfold issuerPermissions_at, issuerRevokedAt_at in *.
  exec_cases Hex c; try exact IH; intros a; rewrite !default_lookup_insert;
    destruct (decide (_ = a)) as [<-|Hne]; try apply IH; simpl; done.
Qed.

Lemma store_consistent_step (s s' : State) (msg_sender now : N) (c : Call) :
  store_consistent s -> execute keccak256 msg_sender now c s = Ok s' -> store_consistent s'.
Proof.
  intros Hs Hex. split.
  - by eapply step_sc_flags.
  - by eapply step_sc_count.
  - by eapply step_sc_materials.
  - by eapply step_sc_cred_lists.
  - by eapply step_sc_history.
  - by eapply step_sc_stored.
  - by eapply step_sc_listed.
  - by eapply step_sc_nodup.
  - by eapply step_sc_approved.
Qed.

Lemma store_consistent_reachable (T : N -> Prop) (s : State) :
  reachable_under keccak256 T s -> store_consistent s.
Proof.
  induction 1; [apply store_consistent_deploy | by eapply store_consistent_step].
Qed.

Lemma evolves_reachable (T : N -> Prop) (s s' : State) :
  (forall t, T t) ->
  reachable_under keccak256 T s -> evolves keccak256 s s' -> reachable_under keccak256 T s'.
Proof.
  intros HT Hs. induction 1 as [|s s1 s2 sender now c _ IH Hex]; [assumption|].
  eapply reachable_call; [exact (IH Hs) | apply HT | exact Hex].
Qed.

(** X6. [materialCount] counts the registered materials: in every
    reachable state the identifiers marked in [materialExists] are exactly
    [materialCount] many (and every stored mark is [true]). *)
Theorem materialCount_counts_materials (s : State) :
  reachable keccak256 s ->
  N.of_nat (size (dom (materialExists s))) = materialCount s
  /\ (forall id, id ∈ dom (materialExists s) <-> materialExists_at s id = true).
Proof.
  intros Hreach. pose proof (store_consistent_reachable _ _ Hreach) as Hs. split.
  - rewrite size_dom, (sc_count s Hs). lia.
  - intros id. rewrite elem_of_dom. unfold materialExists_at. split.
    + intros [b Hb]. rewrite Hb. simpl. by eapply sc_flags.
    + destruct (materialExists s !! id); [by eauto | discriminate].
Qed.

(** X7. Nothing is stored under an identifier that was never registered:
    in every reachable state such an identifier has no material record, no
    credentials, no transfers and no history, and [getMaterial] reverts
    with MaterialNotFound.  A registered material has at least one history
    entry. *)
Theorem unregistered_id_is_empty (s : State) (id : string) :
  reachable keccak256 s ->
  (materialExists_at s id = false ->
     getMaterial id s = Revert MaterialNotFound
     /\ materials s !! id = None
     /\ getCredentialIds id s = []
     /\ getTransfers id s = []
     /\ getHistoryCount id s = 0)
  /\ (materialExists_at s id = true -> 0 < getHistoryCount id s).
Proof.
  intros Hreach. pose proof (store_consistent_reachable _ _ Hreach) as Hs.
  destruct (transfers_well_formed_reachable _ _ Hreach) as [_ Htr].
  pose proof (materials_of_existing_reachable _ _ Hreach) as Hmat.
  split; intros Hex.
  - split; [unfold getMaterial, materialMustExist; by rewrite Hex|].
    split. { destruct (materials s !! id) eqn:Hm; [|reflexivity]. apply Hmat in Hm. congruence. }
    split. { unfold getCredentialIds. destruct (materialCredentials_at s id) eqn:Hl; [done|].
             rewrite (sc_cred_lists s Hs id) in Hex; [discriminate | by rewrite Hl]. }
    split. { unfold getTransfers. destruct (materialTransfers_at s id) eqn:Hl; [done|].
             rewrite (Htr id) in Hex; [discriminate | by rewrite Hl]. }
    unfold getHistoryCount. destruct (materialHistory_at s id) eqn:Hl; [done|].
    rewrite (proj1 (sc_history s Hs id)) in Hex; [discriminate | by rewrite Hl].
  - apply (sc_history s Hs) in Hex. unfold getHistoryCount.
    destruct (materialHistory_at s id); [done | simpl; lia].
Qed.

Lemma fmap_credentials_insert (creds : gmap string Credential.t) (k0 : string)
    (c0 : Credential.t) (l : list string) :
  k0 ∉ l ->
  (fun k => default Credential.zero (<[k0 := c0]> creds !! k)) <$> l
  = (fun k => default Credential.zero (creds !! k)) <$> l.
Proof.
  intros Hl. apply list_fmap_ext. intros i k Hk.
  rewrite lookup_insert_ne; [reflexivity|]. intros <-. apply Hl.
  apply list_elem_of_lookup. eauto.
Qed.

(** X8. Issuing round trip: in a reachable state a successful
    [issueCredential] returns an identifier under which [getCredential]
    found nothing before and finds the new credential afterwards -- issued
    by the caller at the block's timestamp, not revoked; [getCredentials]
    of the material is the old list with the new credential at the end,
    and the lists of the other materials are as before. *)
Theorem issueCredential_appends (s s' : State) (msg_sender now : N)
    (materialId : string) (credType : CredentialType) (commitmentHash validUntil : N)
    (artifactCid : string) (artifactHash : N) (issuerId credentialId : string) :
  reachable keccak256 s ->
  issueCredential keccak256 msg_sender now materialId credType commitmentHash validUntil
    artifactCid artifactHash issuerId s = Ok (s', credentialId) ->
  let cr := Credential.mk credentialId materialId credType commitmentHash msg_sender issuerId
              now validUntil artifactCid artifactHash false in
  getCredential credentialId s = Revert CredentialNotFound
  /\ getCredential credentialId s' = Ok cr
  /\ getCredentials materialId s' = getCredentials materialId s ++ [cr]
  /\ (forall other, other <> materialId -> getCredentials other s' = getCredentials other s).
Proof.
  intros Hreach Hiss cr. subst cr.
  pose proof (store_consistent_reachable _ _ Hreach) as Hs.
  pose proof (listed_credential_not_next s) as Hnext. specialize (fun i k => Hnext i k Hs).
  assert (Hnone : credentials s !! ("cred:" +:+ decimal (credentialCount s + 1)) = None).
  { destruct (credentials s !! _) as [c0|] eqn:Hc0; [|reflexivity].
    destruct (sc_stored s Hs _ _ Hc0) as (_ & Hm & _). by apply minted_credential_id_fresh in Hm. }
  unfold issueCredential in Hiss.
  inv_Ok Hiss; subst; unfold getCredential, getCredentials; unfold_at; simpl_state;
    rewrite Hnone, !lookup_insert_eq; simpl;
    (split; [reflexivity|]); (split; [reflexivity|]); split.
  all: try (rewrite fmap_app; simpl; rewrite lookup_insert_eq; simpl; f_equal).
  all: try (intros other Hother; rewrite lookup_insert_ne by congruence).
  all: apply fmap_credentials_insert; intros Hin; by eapply Hnext.
Qed.

(** X9. Every credential [getCredentials] returns in a reachable state is
    well formed: it sits under its own identifier "cred:<n>" with
    [1 <= n <= credentialCount], it names the material it is listed under
    and that material exists, and both its hashes are non-zero.  No
    credential identifier is listed twice. *)
Theorem listed_credentials_well_formed (s : State) (id : string) (i : nat) (cr : Credential.t) :
  reachable keccak256 s ->
  getCredentials id s !! i = Some cr ->
  getCredentialIds id s !! i = Some (Credential.credentialId cr)
  /\ minted_credential_id (credentialCount s) (Credential.credentialId cr)
  /\ getCredential (Credential.credentialId cr) s = Ok cr
  /\ Credential.materialId cr = id
  /\ materialExists_at s id = true
  /\ Credential.commitmentHash cr <> 0
  /\ Credential.artifactHash cr <> 0
  /\ NoDup (getCredentialIds id s).
Proof.
  intros Hreach Hi. pose proof (store_consistent_reachable _ _ Hreach) as Hs.
  unfold getCredentials, getCredentialIds in *. rewrite list_lookup_fmap in Hi.
  destruct (materialCredentials_at s id !! i) as [k|] eqn:Hk; [|discriminate].
  simpl in Hi. injection Hi as <-.
  assert (Hin : k ∈ materialCredentials_at s id) by (apply list_elem_of_lookup; eauto).
  destruct (sc_listed s Hs _ _ Hin) as (c0 & Hc0 & Hmid).
  destruct (sc_stored s Hs _ _ Hc0) as (E1 & E2 & E3 & E4 & E5).
  assert (Hat : credentials_at s k = c0) by (unfold credentials_at; by rewrite Hc0).
  rewrite Hat, E1. split; [reflexivity|]. split; [assumption|]. split.
  { unfold getCredential. rewrite Hat, E1.
    destruct E2 as (n & _ & ->). reflexivity. }
  split; [assumption|]. split.
  { apply (sc_cred_lists s Hs). intros Hnil. rewrite Hnil in Hin. by apply not_elem_of_nil in Hin. }
  split; [assumption|]. split; [assumption|]. apply (sc_nodup s Hs).
Qed.

Lemma approved_not_revoked_reachable (T : N -> Prop) (s : State) (a : N) :
  reachable_under keccak256 T s ->
  IssuerPermission.isApproved (issuerPermissions_at s a) = true -> issuerRevokedAt_at s a = 0.
Proof. intros Hreach. apply sc_approved. by eapply store_consistent_reachable. Qed.

(** X10. In every reachable state an approved issuer has revocation
    timestamp 0 (revoking clears the approval, authorizing clears the
    timestamp).  So the modifier [onlyApprovedIssuer] either passes or
    reverts with NotApprovedIssuer, and no call of [issueCredential] ever
    reverts with IssuerRevoked. *)
Theorem IssuerRevoked_is_never_raised (s : State) (msg_sender now : N)
    (materialId : string) (credType : CredentialType) (commitmentHash validUntil : N)
    (artifactCid : string) (artifactHash : N) (issuerId : string) :
  reachable keccak256 s ->
  (IssuerPermission.isApproved (issuerPermissions_at s msg_sender) = true ->
     issuerRevokedAt_at s msg_sender = 0)
  /\ onlyApprovedIssuer msg_sender s
     = (if IssuerPermission.isApproved (issuerPermissions_at s msg_sender)
        then Ok tt else Revert NotApprovedIssuer)
  /\ issueCredential keccak256 msg_sender now materialId credType commitmentHash validUntil
       artifactCid artifactHash issuerId s <> Revert IssuerRevoked.
Proof.
  intros Hreach. pose proof (approved_not_revoked_reachable _ s msg_sender Hreach) as Happ.
  split; [exact Happ|].
  assert (Hmod : onlyApprovedIssuer msg_sender s
                 = (if IssuerPermission.isApproved (issuerPermissions_at s msg_sender)
                    then Ok tt else Revert NotApprovedIssuer)).
  { unfold onlyApprovedIssuer.
    destruct (IssuerPermission.isApproved _); [|reflexivity]. by rewrite Happ. }
  split; [exact Hmod|]. unfold issueCredential. rewrite Hmod.
  destruct (IssuerPermission.isApproved _); [|discriminate]. cbn [bind].
  unfold materialMustExist.
  repeat match goal with
         | |- bind (revert_if ?b _) _ <> _ => destruct b; [discriminate|]; cbn [bind revert_if]
         end.
  destruct credType;
    repeat match goal with
           | |- bind (revert_if ?b _) _ <> _ => destruct b; [discriminate|]; cbn [bind revert_if]
           end;
    unfold checked_inc; destruct (_ <? _); try discriminate;
    cbn [bind]; rewrite bind_uint2str; discriminate.
Qed.

(** X11. A freshly registered material: in a reachable state a successful
    [registerMaterial] creates a record owned by the caller, ACTIVE, with
    both timestamps equal to the block's; the new material has no
    credentials and no transfers, one history entry, and at every time
    verification fails with exactly MISSING_IDENTITY and QC_MISSING. *)
Theorem registered_material_starts_unverified (s s' : State) (msg_sender now : N)
    (materialType : string) (metadataHash : N) (ownerOrg id : string) :
  reachable keccak256 s ->
  registerMaterial keccak256 msg_sender now materialType metadataHash ownerOrg s = Ok (s', id) ->
  getMaterial id s'
  = Ok (Material.mk id materialType metadataHash msg_sender ownerOrg ACTIVE now now)
  /\ getCredentials id s' = []
  /\ getTransfers id s' = []
  /\ getHistoryCount id s' = 1
  /\ (forall atTime,
        verifyMaterialAt id atTime s'
        = Ok (false, ["MISSING_IDENTITY"%string; "QC_MISSING"%string])).
Proof.
  intros Hreach Hreg. pose proof (store_consistent_reachable _ _ Hreach) as Hs.
  destruct (transfers_well_formed_reachable _ _ Hreach) as [_ Htr].
  unfold registerMaterial in Hreg. inv_Ok Hreg. subst s' id. simpl_state.
  set (id := "bio:" +:+ _ +:+ ":" +:+ _) in *.
  assert (Hfresh : materialExists_at s id = false) by exact Hc2.
  assert (Hcreds : materialCredentials_at s id = []).
  { destruct (materialCredentials_at s id) eqn:Hl; [done|].
    rewrite (sc_cred_lists s Hs id) in Hfresh; [discriminate | by rewrite Hl]. }
  assert (Htrs : materialTransfers_at s id = []).
  { destruct (materialTransfers_at s id) eqn:Hl; [done|].
    rewrite (Htr id) in Hfresh; [discriminate | by rewrite Hl]. }
  assert (Hhist : materialHistory_at s id = []).
  { destruct (materialHistory_at s id) eqn:Hl; [done|].
    rewrite (proj1 (sc_history s Hs id)) in Hfresh; [discriminate | by rewrite Hl]. }
  unfold getMaterial, getCredentials, getTransfers, getHistoryCount, verifyMaterialAt,
    materialMustExist, _verifyMaterialAt.
  unfold_at. simpl_state. unfold_at. simpl_state.
  rewrite !lookup_insert_eq, Hcreds, Htrs, Hhist. simpl.
  repeat split.
Qed.

(** *** Who can change what *)

(** X12. No call changes the admin, and only the admin changes the issuer
    tables: a successful call by anyone else leaves [issuerPermissions] and
    [issuerRevokedAt] as they were, and a successful [authorizeIssuer] or
    [revokeIssuer] was sent by the admin. *)
Theorem only_admin_manages_issuers (s s' : State) (msg_sender now : N) (c : Call) :
  execute keccak256 msg_sender now c s = Ok s' ->
  admin s' = admin s
  /\ (msg_sender <> admin s ->
        issuerPermissions s' = issuerPermissions s /\ issuerRevokedAt s' = issuerRevokedAt s)
  /\ (issuer_call c = true -> msg_sender = admin s).
Proof.
  intros Hex. exec_cases Hex c; cbn [issuer_call];
    (split; [reflexivity|]); (split; [|try discriminate]); try (by intros _; split).
  all: apply negb_false_iff, N.eqb_eq in Hc; done.
Qed.

Lemma execute_material_persists (s s' : State) (msg_sender now : N) (c : Call) (id : string) :
  execute keccak256 msg_sender now c s = Ok s' ->
  materialExists_at s id = true ->
  materialExists_at s' id = true
  /\ Material.materialId (materials_at s' id) = Material.materialId (materials_at s id)
  /\ Material.materialType (materials_at s' id) = Material.materialType (materials_at s id)
  /\ Material.metadataHash (materials_at s' id) = Material.metadataHash (materials_at s id)
  /\ Material.createdAt (materials_at s' id) = Material.createdAt (materials_at s id).
Proof.
  intros Hex Hid. unfold materialExists_at, materials_at in *.
  exec_cases Hex c; try (by repeat split);
    rewrite ?default_lookup_insert; destruct (decide (_ = id)) as [<-|Hne];
    try (by repeat split).
  (* registerMaterial cannot mint an identifier that exists *)
  rewrite Hid in Hc2. discriminate.
Qed.

(** X13. Materials are never destroyed and their identity never changes:
    once an identifier exists it exists after any further calls, and the
    record keeps its [materialId], [materialType], [metadataHash] and
    [createdAt]. *)
Theorem material_identity_is_permanent (s s' : State) (id : string) :
  evolves keccak256 s s' ->
  materialExists_at s id = true ->
  materialExists_at s' id = true
  /\ Material.materialId (materials_at s' id) = Material.materialId (materials_at s id)
  /\ Material.materialType (materials_at s' id) = Material.materialType (materials_at s id)
  /\ Material.metadataHash (materials_at s' id) = Material.metadataHash (materials_at s id)
  /\ Material.createdAt (materials_at s' id) = Material.createdAt (materials_at s id).
Proof.
  induction 1 as [s | s s1 s2 sender now c _ IH Hex]; intros Hid; [by repeat split|].
  destruct (IH Hid) as (E0 & E1 & E2 & E3 & E4).
  destruct (execute_material_persists _ _ _ _ _ id Hex E0) as (F0 & F1 & F2 & F3 & F4).
  split; [assumption|]. rewrite F1, F2, F3, F4. by repeat split.
Qed.

(** X14. Ownership of an existing material moves only through
    [acceptTransfer]: if a successful call changes the owner, the call is
    [acceptTransfer] on that material, the new owner is its caller, and the
    caller was the [toAddress] of the material's latest transfer, which was
    still unaccepted. *)
Theorem owner_changes_only_by_acceptance (s s' : State) (msg_sender now : N) (c : Call)
    (id : string) :
  execute keccak256 msg_sender now c s = Ok s' ->
  materialExists_at s id = true ->
  Material.owner (materials_at s' id) <> Material.owner (materials_at s id) ->
  c = AcceptTransfer id
  /\ Material.owner (materials_at s' id) = msg_sender
  /\ exists x, last (getTransfers id s) = Some x
               /\ Transfer.toAddress x = msg_sender
               /\ Transfer.accepted x = false.
Proof.
  intros Hex Hid Hown. unfold materialExists_at, materials_at, getTransfers in *.
  exec_cases Hex c; try (by exfalso);
    rewrite ?default_lookup_insert in Hown; rewrite ?default_lookup_insert;
    destruct (decide (_ = id)) as [<-|Hne]; try (by exfalso).
  - rewrite Hid in Hc2. discriminate.
  - split; [reflexivity|]. split; [reflexivity|]. exists t.
    apply negb_false_iff, N.eqb_eq in Hc1. by repeat split.
Qed.

(** *** Credentials *)

Lemma execute_credential_persists (s s' : State) (msg_sender now : N) (c : Call)
    (k : string) (cr : Credential.t) :
  store_consistent s ->
  execute keccak256 msg_sender now c s = Ok s' ->
  credentials s !! k = Some cr ->
  exists cr', credentials s' !! k = Some cr'
              /\ cr' = Credential.set_revoked (Credential.revoked cr') cr
              /\ (Credential.revoked cr = true -> Credential.revoked cr' = true).
Proof.
  intros Hs Hex Hk. destruct (sc_stored s Hs _ _ Hk) as (_ & Hm & _).
  assert (Hsame : exists cr', Some cr = Some cr'
              /\ cr' = Credential.set_revoked (Credential.revoked cr') cr
              /\ (Credential.revoked cr = true -> Credential.revoked cr' = true)).
  { exists cr. split; [reflexivity|]. split; [by destruct cr|]. intros Hr. exact Hr. }
  clear Hs. unfold credentials_at in *.
  exec_cases Hex c; rewrite ?lookup_insert; try (rewrite Hk; exact Hsame);
    destruct (decide (_ = k)) as [<-|Hne]; try (rewrite Hk; exact Hsame).
  (* issueCredential mints an identifier that is not stored yet *)
  1-3: by apply minted_credential_id_fresh in Hm.
  (* revokeCredential *)
  rewrite Hk. simpl. eexists. split; [reflexivity|]. by split.
Qed.

(** X15. Credentials are permanent: starting from a reachable state, a
    stored credential stays stored under its identifier through any
    further calls, with every field as issued except [revoked]; and
    [revoked], once true, stays true. *)
Theorem credentials_are_permanent (s s' : State) (k : string) (cr : Credential.t) :
  reachable keccak256 s ->
  evolves keccak256 s s' ->
  credentials s !! k = Some cr ->
  exists cr', credentials s' !! k = Some cr'
              /\ cr' = Credential.set_revoked (Credential.revoked cr') cr
              /\ (Credential.revoked cr = true -> Credential.revoked cr' = true).
Proof.
  intros Hreach Hev Hk. induction Hev as [s | s s1 s2 sender now c Hev IH Hex].
  - exists cr. split; [assumption|]. split; [by destruct cr|]. intros Hr. exact Hr.
  - destruct (IH Hreach Hk) as (c1 & Hc1 & Heq1 & Hrev1).
    assert (Hs1 : store_consistent s1).
    { apply (store_consistent_reachable (fun _ => True)).
      by eapply evolves_reachable; [|exact Hreach|exact Hev]. }
    destruct (execute_credential_persists _ _ _ _ _ _ _ Hs1 Hex Hc1) as (c2 & Hc2 & Heq2 & Hrev2).
    exists c2. split; [assumption|]. split; [|by auto].
    rewrite Heq2, Heq1. by destruct cr.
Qed.

(** X16. [revokeCredential] reverts with CredentialNotFound for an
    identifier nothing is stored under, with NotAuthorizedToRevoke for a
    caller who is neither the issuer nor the admin, and with
    CredentialAlreadyRevoked for a revoked credential, in that order.  It
    is not repeatable: after a successful revocation the credential reads
    back revoked, and the same call again reverts with
    CredentialAlreadyRevoked. *)
Theorem revokeCredential_once (s : State) (msg_sender now : N) (credentialId : string) :
  let cr := credentials_at s credentialId in
  (String.length (Credential.credentialId cr) = 0%nat ->
     revokeCredential keccak256 msg_sender now credentialId s = Revert CredentialNotFound)
  /\ (String.length (Credential.credentialId cr) <> 0%nat ->
      Credential.issuer cr <> msg_sender -> msg_sender <> admin s ->
      revokeCredential keccak256 msg_sender now credentialId s = Revert NotAuthorizedToRevoke)
  /\ (String.length (Credential.credentialId cr) <> 0%nat ->
      Credential.issuer cr = msg_sender \/ msg_sender = admin s ->
      if Credential.revoked cr
      then revokeCredential keccak256 msg_sender now credentialId s
           = Revert CredentialAlreadyRevoked
      else exists s',
          revokeCredential keccak256 msg_sender now credentialId s = Ok s'
          /\ getCredential credentialId s' = Ok (Credential.set_revoked true cr)
          /\ forall now',
              revokeCredential keccak256 msg_sender now' credentialId s'
              = Revert CredentialAlreadyRevoked).
Proof.
  intros cr. subst cr. unfold revokeCredential. split; [|split].
  - intros ->. reflexivity.
  - intros Hlen Hiss Hadm. apply Nat.eqb_neq in Hlen. rewrite Hlen.
    apply N.eqb_neq in Hiss, Hadm. rewrite Hiss, Hadm. reflexivity.
  - intros Hlen Hauth. apply Nat.eqb_neq in Hlen. rewrite Hlen. cbn [bind revert_if].
    assert (Hok : negb (Credential.issuer (credentials_at s credentialId) =? msg_sender)
                  && negb (msg_sender =? admin s) = false).
    { destruct Hauth as [<- | ->]; rewrite N.eqb_refl; simpl; [reflexivity | apply andb_false_r]. }
    rewrite Hok. cbn [bind revert_if].
    destruct (Credential.revoked (credentials_at s credentialId)) eqn:Hrev; [reflexivity|].
    cbn [bind revert_if]. eexists. split; [reflexivity|].
    unfold getCredential, credentials_at. simpl_state. rewrite !lookup_insert_eq. simpl.
    fold (credentials_at s credentialId). rewrite Hlen. cbn [bind revert_if].
    split; [reflexivity|]. intros now'. rewrite Hok. reflexivity.
Qed.

(** *** Verification *)

Lemma verify_by_checks (s : State) (id : string) (atTime : N) :
  let sc := scan_credentials s (materialCredentials_at s id) in
  let reasons := status_reasons (Material.status (materials_at s id))
                 ++ identity_reasons sc ++ qc_reasons sc atTime
                 ++ transfer_reasons (materialTransfers_at s id) in
  _verifyMaterialAt id atTime s = (Nat.eqb (length reasons) 0, reasons).
Proof.
  unfold _verifyMaterialAt, status_reasons, identity_reasons, qc_reasons, transfer_reasons.
  cbv zeta.
  destruct (Material.status _); destruct (hasIdentity _); destruct (latestQcIssuedAt _ =? 0);
    destruct (atTime <=? _); destruct (latestQcFromRevokedIssuer _); destruct (existsb _ _);
    reflexivity.
Qed.

(** X17. The reasons come in the order of the checks: the list
    [verifyMaterialAt] returns is a subsequence of MATERIAL_REVOKED,
    MATERIAL_QUARANTINED, MISSING_IDENTITY, QC_MISSING, QC_ISSUER_REVOKED,
    QC_EXPIRED, TRANSFER_PENDING, so it has no duplicates; it never has
    more than four entries (the ten-slot buffer of the code is never
    full); and [pass] is true exactly when the list is empty. *)
Theorem reasons_in_check_order (s : State) (id : string) (atTime : N) :
  let '(pass, reasons) := _verifyMaterialAt id atTime s in
  reasons `sublist_of` reason_codes
  /\ NoDup reasons
  /\ (length reasons <= 4)%nat
  /\ (pass = true <-> reasons = []).
Proof.
  rewrite verify_by_checks. cbv beta iota zeta.
  unfold status_reasons, identity_reasons, qc_reasons, transfer_reasons.
  destruct (Material.status _); destruct (hasIdentity _); destruct (latestQcIssuedAt _ =? 0);
    destruct (atTime <=? _); destruct (latestQcFromRevokedIssuer _); destruct (existsb _ _);
    cbn [app length Nat.eqb negb andb].
  all: (split; [unfold reason_codes;
             repeat first [apply sublist_nil | apply sublist_skip | apply sublist_cons]|]);
    (split; [apply (bool_decide_unpack _); by vm_compute|]);
    (split; [lia|]); split; congruence.
Qed.

Lemma hasIdentity_iff (s : State) (id : string) :
  hasIdentity (scan_credentials s (materialCredentials_at s id)) = true <->
  exists cr, cr ∈ getCredentials id s /\ valid_identity s cr = true.
Proof.
  rewrite hasIdentity_scan_credentials, existsb_exists. unfold getCredentials. split.
  - intros (k & Hk & Hv). exists (credentials_at s k). split; [|assumption].
    apply list_elem_of_fmap. exists k. split; [reflexivity|]. by apply list_elem_of_In.
  - intros (cr & Hin & Hv). apply list_elem_of_fmap in Hin as (k & -> & Hk).
    exists k. split; [by apply list_elem_of_In | assumption].
Qed.

(** X18. [verifyMaterialAt] passes exactly when the material is ACTIVE,
    some credential of it is a non-revoked IDENTITY whose issuer was not
    revoked at or before its issuance, the credential loop selected a QC
    that is still valid at [atTime] and whose issuer was not revoked
    before its issuance, and every transfer is accepted. *)
Theorem verification_passes_iff (s : State) (id : string) (atTime : N) :
  let sc := scan_credentials s (getCredentialIds id s) in
  fst (_verifyMaterialAt id atTime s) = true <->
  Material.status (materials_at s id) = ACTIVE
  /\ (exists cr, cr ∈ getCredentials id s /\ valid_identity s cr = true)
  /\ (latestQcIssuedAt sc <> 0 /\ atTime <= latestQcValidUntil sc
      /\ latestQcFromRevokedIssuer sc = false)
  /\ (forall x, x ∈ getTransfers id s -> Transfer.accepted x = true).
Proof.
  intros sc. subst sc. unfold getCredentialIds, getTransfers.
  rewrite <- hasIdentity_iff, verify_by_checks. cbv beta iota zeta. cbn [fst].
  unfold status_reasons, identity_reasons, qc_reasons, transfer_reasons.
  assert (Htr : existsb (fun x => negb (Transfer.accepted x)) (materialTransfers_at s id) = false
                <-> forall x, x ∈ materialTransfers_at s id -> Transfer.accepted x = true).
  { rewrite <- not_true_iff_false, existsb_exists. split.
    - intros Hno x Hx. destruct (Transfer.accepted x) eqn:Hax; [reflexivity|].
      exfalso. apply Hno. exists x. rewrite Hax. split; [by apply list_elem_of_In | reflexivity].
    - intros Hall (x & Hx & Hax). apply list_elem_of_In in Hx. rewrite (Hall x Hx) in Hax.
      discriminate. }
  rewrite <- Htr. rewrite <- N.eqb_neq, <- N.leb_le.
  destruct (Material.status _); destruct (hasIdentity _); destruct (latestQcIssuedAt _ =? 0);
    destruct (atTime <=? _); destruct (latestQcFromRevokedIssuer _); destruct (existsb _ _);
    cbn [app length Nat.eqb negb andb]; split; try discriminate; try (by repeat split);
    intros (H1 & H2 & (H3 & H4 & H5) & H6); congruence.
Qed.

(** X19. Verification only gets stricter with time: on the same state,
    every reason reported at [t1] is also reported at any later [t2], so a
    material that passes at [t2] passes at every earlier time. *)
Theorem verification_monotone_in_time (s : State) (id : string) (t1 t2 : N) :
  t1 <= t2 ->
  (forall reason, reason ∈ snd (_verifyMaterialAt id t1 s) ->
                  reason ∈ snd (_verifyMaterialAt id t2 s))
  /\ (fst (_verifyMaterialAt id t2 s) = true -> fst (_verifyMaterialAt id t1 s) = true).
Proof using Type.
  clear keccak256.
  intros Hle. rewrite !verify_by_checks. cbv beta iota zeta. cbn [fst snd].
  unfold qc_reasons.
  destruct (N.leb_spec t2 (latestQcValidUntil (scan_credentials s (materialCredentials_at s id))))
    as [H2|H2].
  - destruct (N.leb_spec t1 (latestQcValidUntil (scan_credentials s (materialCredentials_at s id))));
      [|lia]. split; [intros reason Hin; exact Hin | intros Hp; exact Hp].
  - rewrite andb_false_r. cbn [andb].
    set (rs := status_reasons _). set (ri := identity_reasons _). set (rt := transfer_reasons _).
    split.
    + intros reason. rewrite !elem_of_app.
      destruct (negb _ && (t1 <=? _) && negb _); [|tauto].
      rewrite elem_of_nil. tauto.
    + destruct (latestQcIssuedAt _ =? 0), (latestQcFromRevokedIssuer _);
        rewrite !length_app; simpl; intros Hz; apply Nat.eqb_eq in Hz; lia.
Qed.

Lemma scan_credentials_snoc (s : State) (l : list string) (k : string) :
  scan_credentials s (l ++ [k]) = scan_credential s (scan_credentials s l) k.
Proof. unfold scan_credentials. by rewrite fold_left_app. Qed.

(** X20. Which QC the loop selects.  Either no non-revoked QC_MYCO
    credential of the material has a non-zero [issuedAt], and then the
    loop reports none ([latestQcIssuedAt = 0]); or it selects the
    non-revoked QC_MYCO credential with the greatest [issuedAt], and among
    several with that same [issuedAt] the one listed first. *)
Theorem latest_qc_selection (s : State) (id : string) :
  let sc := scan_credentials s (getCredentialIds id s) in
  (latestQcIssuedAt sc = 0
   /\ forall cr, cr ∈ getCredentials id s -> eligible_qc cr -> Credential.issuedAt cr = 0)
  \/ (exists j cr,
        getCredentials id s !! j = Some cr
        /\ eligible_qc cr
        /\ 0 < Credential.issuedAt cr
        /\ latestQcIssuedAt sc = Credential.issuedAt cr
        /\ latestQcValidUntil sc = Credential.validUntil cr
        /\ latestQcFromRevokedIssuer sc = issuerWasRevokedBeforeIssuance s cr
        /\ forall j' cr', getCredentials id s !! j' = Some cr' -> eligible_qc cr' ->
             Credential.issuedAt cr' <= Credential.issuedAt cr
             /\ ((j' < j)%nat -> Credential.issuedAt cr' < Credential.issuedAt cr)).
Proof using Type.
  clear keccak256.
  unfold getCredentials, getCredentialIds. cbv zeta.
  induction (materialCredentials_at s id) as [|k l IH] using rev_ind.
  { left. split; [reflexivity|]. intros cr Hin. by apply elem_of_nil in Hin. }
  rewrite scan_credentials_snoc, fmap_app. simpl.
  set (sc0 := scan_credentials s l) in *. set (cr := credentials_at s k).
  assert (Hlen : length (credentials_at s <$> l) = length l) by apply length_fmap.
  destruct (decide (eligible_qc cr /\ latestQcIssuedAt sc0 < Credential.issuedAt cr))
    as [[Hel Hlt]|Hmiss].
  - (* the new credential is selected *)
    destruct (scan_credential_hit s sc0 k Hel Hlt) as (E1 & E2 & E3). fold cr in E1, E2, E3.
    right. exists (length l), cr. rewrite E1, E2, E3.
    split; [by rewrite lookup_app_r, Hlen, Nat.sub_diag by lia|].
    split; [assumption|]. split; [lia|]. do 3 (split; [reflexivity|]).
    intros j' cr' Hj' Hel'.
    destruct (decide (j' < length l)%nat) as [Hin|Hout].
    + rewrite lookup_app_l in Hj' by lia.
      assert (Credential.issuedAt cr' <= latestQcIssuedAt sc0); [|split; lia].
      destruct IH as [[Hz Hall] | (j0 & cr0 & _ & _ & _ & -> & _ & _ & Hmax)].
      * rewrite (Hall cr'); [lia | by eapply list_elem_of_lookup_2 | assumption].
      * by apply (Hmax j' cr').
    + rewrite lookup_app_r, Hlen in Hj' by lia.
      destruct (j' - length l)%nat as [|n] eqn:Hn; [|destruct n; discriminate Hj'].
      injection Hj' as <-. split; [lia|]. intros ?. lia.
  - (* the selection is unchanged *)
    destruct (scan_credential_miss s sc0 k) as (E1 & E2 & E3).
    { fold cr. intros Hel. destruct (N.le_gt_cases (Credential.issuedAt cr)
                                       (latestQcIssuedAt sc0)); [assumption|]. tauto. }
    assert (Hnew : eligible_qc cr -> Credential.issuedAt cr <= latestQcIssuedAt sc0).
    { intros Hel. destruct (N.le_gt_cases (Credential.issuedAt cr) (latestQcIssuedAt sc0));
        [assumption | tauto]. }
    rewrite E1, E2, E3. destruct IH as [[Hz Hall] | (j0 & cr0 & Hj0 & He0 & Hp0 & F1 & F2 & F3 & Hmax)].
    + left. split; [assumption|]. intros cr' Hin Hel'.
      apply elem_of_app in Hin as [Hin | Hin%list_elem_of_singleton]; [by apply Hall|].
      subst cr'. specialize (Hnew Hel'). lia.
    + right. exists j0, cr0. split; [by apply lookup_app_l_Some|].
      do 5 (split; [assumption|]). intros j' cr' Hj' Hel'.
      destruct (decide (j' < length l)%nat) as [Hin|Hout].
      * rewrite lookup_app_l in Hj' by lia. by apply Hmax.
      * rewrite lookup_app_r, Hlen in Hj' by lia.
        destruct (j' - length l)%nat as [|n] eqn:Hn; [|destruct n; discriminate Hj'].
        injection Hj' as <-. apply lookup_lt_Some in Hj0. rewrite Hlen in Hj0.
        split; [rewrite <- F1; by apply Hnew | lia].
Qed.

Lemma scan_credentials_ext (s s' : State) (l : list string) :
  (forall k, k ∈ l ->
     credentials_at s' k = credentials_at s k
     /\ issuerWasRevokedBeforeIssuance s' (credentials_at s k)
        = issuerWasRevokedBeforeIssuance s (credentials_at s k)) ->
  scan_credentials s' l = scan_credentials s l.
Proof.
  unfold scan_credentials. generalize (mkScan false 0 0 false).
  induction l as [|k l IH]; intros acc Hl; simpl; [reflexivity|].
  destruct (Hl k) as [E1 E2]; [by left|].
  replace (scan_credential s' acc k) with (scan_credential s acc k).
  - apply IH. intros k' Hk'. apply Hl. by right.
  - unfold scan_credential. by rewrite E1, E2.
Qed.

Lemma verify_ext (s s' : State) (id : string) (atTime : N) :
  Material.status (materials_at s' id) = Material.status (materials_at s id) ->
  scan_credentials s' (materialCredentials_at s' id)
  = scan_credentials s (materialCredentials_at s id) ->
  materialTransfers_at s' id = materialTransfers_at s id ->
  _verifyMaterialAt id atTime s' = _verifyMaterialAt id atTime s.
Proof. intros E1 E2 E3. unfold _verifyMaterialAt. by rewrite E1, E2, E3. Qed.

(** X21. USAGE_RIGHTS credentials play no part in verification: in a
    reachable state, after a successful [issueCredential] of type
    USAGE_RIGHTS every material verifies, at every time, exactly as
    before. *)
Theorem usage_rights_do_not_affect_verification (s s' : State) (msg_sender now : N)
    (materialId : string) (commitmentHash validUntil : N)
    (artifactCid : string) (artifactHash : N) (issuerId credentialId : string) :
  reachable keccak256 s ->
  issueCredential keccak256 msg_sender now materialId USAGE_RIGHTS commitmentHash validUntil
    artifactCid artifactHash issuerId s = Ok (s', credentialId) ->
  forall id atTime, _verifyMaterialAt id atTime s' = _verifyMaterialAt id atTime s.
Proof.
  intros Hreach Hiss id atTime. pose proof (store_consistent_reachable _ _ Hreach) as Hs.
  pose proof (listed_credential_not_next s) as Hnext. specialize (fun i k => Hnext i k Hs).
  unfold issueCredential in Hiss. inv_Ok Hiss. subst s' credentialId.
  apply verify_ext; [reflexivity | | reflexivity].
  match goal with
  | |- scan_credentials ?S' _ = _ =>
      assert (Hold : forall l, (forall k, k ∈ l -> k <> "cred:" +:+ decimal (credentialCount s + 1)) ->
                               scan_credentials S' l = scan_credentials s l)
  end.
  { intros l Hl. apply scan_credentials_ext. intros k Hk. split; [|reflexivity].
    unfold credentials_at. simpl_state. rewrite lookup_insert_ne; [reflexivity|].
    intros Heq. by eapply Hl. }
  unfold materialCredentials_at in *. simpl_state. unfold materialCredentials_at in *. simpl_state.
  rewrite default_lookup_insert. destruct (decide (materialId = id)) as [<-|Hne].
  - rewrite scan_credentials_snoc, Hold by (intros k Hk; by eapply Hnext).
    unfold scan_credential, credentials_at. simpl_state. rewrite lookup_insert_eq. simpl.
    reflexivity.
  - apply Hold. intros k Hk. by eapply Hnext.
Qed.

(** X22. Revoking an issuer reaches back no further than its own
    timestamp: if the issuer was not revoked before and every credential
    it issued on a material was issued strictly before the block of the
    revocation, the material verifies exactly as before.  A credential of
    that issuer with [issuedAt] at or after the revocation timestamp (the
    same block suffices) counts as issued by a revoked issuer. *)
Theorem revokeIssuer_spares_earlier_credentials (s s' : State) (msg_sender now issuer : N)
    (id : string) :
  revokeIssuer msg_sender now issuer s = Ok s' ->
  (issuerRevokedAt_at s issuer = 0 ->
   (forall cr, cr ∈ getCredentials id s -> Credential.issuer cr = issuer ->
               Credential.issuedAt cr < now) ->
   forall atTime, _verifyMaterialAt id atTime s' = _verifyMaterialAt id atTime s)
  /\ (forall cr, Credential.issuer cr = issuer -> 0 < now -> now <= Credential.issuedAt cr ->
        issuerWasRevokedBeforeIssuance s' cr = true).
Proof.
  intros Hrev. unfold revokeIssuer in Hrev. inv_Ok Hrev. subst s'. split.
  - intros Hnot Hbefore atTime. apply verify_ext; [reflexivity | | reflexivity].
    unfold materialCredentials_at at 1. simpl_state. fold (materialCredentials_at s id).
    apply scan_credentials_ext. intros k Hk. split; [reflexivity|].
    unfold issuerWasRevokedBeforeIssuance, issuerRevokedAt_at in *. simpl_state.
    rewrite default_lookup_insert.
    destruct (decide (issuer = _)) as [Heq|Hne]; [|reflexivity].
    rewrite <- Heq, Hnot. simpl.
    assert (Hlt : Credential.issuedAt (credentials_at s k) < now).
    { apply Hbefore; [|by symmetry]. unfold getCredentials. apply list_elem_of_fmap. eauto. }
    apply N.leb_gt in Hlt. rewrite Hlt. apply andb_false_r.
  - intros cr Hiss Hpos Hle. unfold issuerWasRevokedBeforeIssuance, issuerRevokedAt_at.
    simpl_state. rewrite Hiss, lookup_insert_eq. simpl.
    apply N.leb_le in Hle. rewrite Hle. destruct (N.eqb_spec now 0); [lia | reflexivity].
Qed.

(** X23. In a reachable state TRANSFER_PENDING is reported exactly when
    the latest transfer of the material is unaccepted; a material without
    transfers, or whose latest transfer is accepted, never gets it. *)
Theorem transfer_pending_iff_latest_unaccepted (s : State) (id : string) (atTime : N) :
  reachable keccak256 s ->
  "TRANSFER_PENDING"%string ∈ snd (_verifyMaterialAt id atTime s) <->
  exists x, last (getTransfers id s) = Some x /\ Transfer.accepted x = false.
Proof.
  intros Hreach. destruct (transfers_well_formed_reachable _ _ Hreach) as [Hp _].
  specialize (Hp id). unfold getTransfers.
  rewrite verify_by_checks. cbv beta iota zeta. cbn [snd].
  assert (Hex : existsb (fun x => negb (Transfer.accepted x)) (materialTransfers_at s id) = true
                <-> exists x, last (materialTransfers_at s id) = Some x
                              /\ Transfer.accepted x = false).
  { rewrite existsb_exists. split.
    - intros (x & Hx & Hax). apply negb_true_iff in Hax.
      apply list_elem_of_In, list_elem_of_lookup in Hx as [i Hi].
      pose proof (Hp i x Hi Hax) as Hend. exists x. split; [|assumption].
      rewrite last_lookup, <- Hend. exact Hi.
    - intros (x & Hlast & Hax). exists x. split; [|by rewrite Hax].
      apply list_elem_of_In. by apply last_Some_elem_of. }
  rewrite <- Hex. unfold status_reasons, identity_reasons, qc_reasons, transfer_reasons.
  destruct (Material.status _); destruct (hasIdentity _); destruct (latestQcIssuedAt _ =? 0);
    destruct (atTime <=? _); destruct (latestQcFromRevokedIssuer _); destruct (existsb _ _);
    cbn [app negb andb];
    (split;
     [intros Hin; try reflexivity; exfalso;
      repeat (apply elem_of_cons in Hin as [Hin|Hin]; [discriminate Hin|]);
      by apply elem_of_nil in Hin
     |intros Heq; try discriminate Heq;
      repeat (apply elem_of_cons; first [left; reflexivity | right])]).
Qed.

(** *** Chain of custody *)

Lemma custody_chain_initiate (owner : N) (l : list Transfer.t) (x : Transfer.t) :
  custody_chain owner l ->
  match last l with Some y => Transfer.accepted y = true | None => True end ->
  Transfer.fromAddress x = owner -> Transfer.accepted x = false ->
  custody_chain owner (l ++ [x]).
Proof.
  intros [Hpairs Hlast] Hacc Hfrom Hx. split.
  - intros i a b Ha Hb. apply lookup_lt_Some in Hb as Hlt. rewrite length_app in Hlt.
    simpl in Hlt. rewrite lookup_app_l in Ha by lia.
    destruct (decide (S i < length l)%nat) as [Hin|Hout].
    + rewrite lookup_app_l in Hb by lia. by eapply Hpairs.
    + rewrite lookup_app_r in Hb by lia.
      replace (S i - length l)%nat with O in Hb by lia. injection Hb as <-.
      rewrite last_lookup in Hacc, Hlast. replace (pred (length l)) with i in * by lia.
      rewrite Ha in Hacc, Hlast. rewrite Hacc in Hlast. split; congruence.
  - rewrite last_snoc, Hx. by symmetry.
Qed.

Lemma custody_chain_accept (owner : N) (l : list Transfer.t) (x : Transfer.t) :
  custody_chain owner l ->
  last l = Some x ->
  custody_chain (Transfer.toAddress x) (<[(length l - 1)%nat := Transfer.set_accepted true x]> l).
Proof.
  intros [Hpairs _] Hx. apply last_Some in Hx as [l' ->].
  rewrite length_app. simpl. replace (length l' + 1 - 1)%nat with (length l' + 0)%nat by lia.
  rewrite insert_app_r. simpl. split.
  - intros i a b Ha Hb. apply lookup_lt_Some in Hb as Hlt. rewrite length_app in Hlt.
    simpl in Hlt. rewrite lookup_app_l in Ha by lia.
    destruct (decide (S i < length l')%nat) as [Hin|Hout].
    + rewrite lookup_app_l in Hb by lia.
      apply (Hpairs i a b); by apply lookup_app_l_Some.
    + rewrite lookup_app_r in Hb by lia.
      replace (S i - length l')%nat with O in Hb by lia. injection Hb as <-.
      apply (Hpairs i a x); [by apply lookup_app_l_Some|].
      rewrite lookup_app_r by lia. by replace (S i - length l')%nat with O by lia.
  - by rewrite last_snoc.
Qed.

Lemma custody_chain_reachable (T : N -> Prop) (s : State) (id : string) :
  reachable_under keccak256 T s ->
  custody_chain (Material.owner (materials_at s id)) (materialTransfers_at s id).
Proof.
  intros Hreach. revert id.
  induction Hreach as [deployer | s s' sender now c Hs IH HT Hex]; intros id.
  - unfold materialTransfers_at. simpl. rewrite lookup_empty. simpl.
    split; [intros i a b Ha; by rewrite lookup_nil in Ha | exact I].
  - destruct (transfers_well_formed_reachable _ _ Hs) as [_ Hte].
    unfold transfers_of_existing in Hte. unfold materials_at, materialTransfers_at, materialExists_at in *.
    exec_cases Hex c; try apply IH; rewrite ?default_lookup_insert;
      destruct (decide (_ = id)) as [<-|Hne]; try apply IH.
    + (* registerMaterial: the new material has no transfers *)
      destruct (default [] (materialTransfers s !! _)) as [|x l] eqn:Hl.
      * split; [intros i a b Ha; by rewrite lookup_nil in Ha | exact I].
      * rewrite Hte in Hc2; [discriminate | by rewrite Hl].
    + (* initiateTransfer after an accepted transfer *)
      apply custody_chain_initiate; [apply IH | | |reflexivity].
      * rewrite Heqo. by destruct (Transfer.accepted t).
      * simpl. by apply negb_false_iff, N.eqb_eq in Hc0.
    + (* initiateTransfer, first transfer *)
      apply custody_chain_initiate; [apply IH | by rewrite Heqo | | reflexivity].
      simpl. by apply negb_false_iff, N.eqb_eq in Hc0.
    + (* acceptTransfer *)
      simpl. apply negb_false_iff, N.eqb_eq in Hc1. rewrite <- Hc1.
      eapply custody_chain_accept; [apply IH | exact Heqo].
Qed.

(** X24. Chain of custody: in every reachable state the transfers of a
    material link up -- each transfer but the last is accepted and its
    recipient is the sender of the next -- and the owner of the material
    is the recipient of the latest transfer if that is accepted, and
    still its sender while it is pending. *)
Theorem transfers_form_a_custody_chain (s : State) (id : string) :
  reachable keccak256 s ->
  (forall i a b, getTransfers id s !! i = Some a -> getTransfers id s !! S i = Some b ->
                 Transfer.accepted a = true /\ Transfer.toAddress a = Transfer.fromAddress b)
  /\ (forall x, last (getTransfers id s) = Some x ->
        Material.owner (materials_at s id)
        = if Transfer.accepted x then Transfer.toAddress x else Transfer.fromAddress x).
Proof.
  intros Hreach. destruct (custody_chain_reachable _ s id Hreach) as [Hpairs Hlast].
  unfold getTransfers. split; [exact Hpairs|]. intros x Hx. by rewrite Hx in Hlast.
Qed.

(** *** The numerals of [uint2str] *)

Lemma digits_are_digits (i : N) : Forall is_digit (digits i).
Proof.
  funelim (digits i); [constructor|].
  apply Forall_app. split; [assumption|]. constructor; [|constructor].
  unfold is_digit. assert (Hr : i mod 10 < 10) by (apply N.mod_lt; lia).
  remember (i mod 10) as r. clear - Hr. rewrite N_ascii_embedding by lia. lia.
Qed.

Lemma digits_nonempty (i : N) : i <> 0 -> digits i <> [].
Proof.
  intros Hi. funelim (digits i); [done|]. apply snoc_not_nil.
Qed.

Lemma digits_head (i : N) : i <> 0 -> head (digits i) <> Some "0"%char.
Proof.
  funelim (digits i); intros Hi; [done|].
  destruct (N.eq_dec (i / 10) 0) as [Hz|Hnz].
  - rewrite Hz. simp digits. simpl.
    assert (i < 10) by (apply N.div_small_iff in Hz; lia).
    rewrite N.mod_small by lia. intros [= Hch].
    apply (f_equal N_of_ascii) in Hch. rewrite N_ascii_embedding in Hch by lia.
    change (N_of_ascii "0") with 48 in Hch. lia.
  - specialize (H Hnz). pose proof (digits_nonempty _ Hnz) as Hne.
    destruct (digits (i / 10)); [done | exact H].
Qed.

(** X25. [uint2str] writes the decimal numeral: for every number it
    returns a non-empty string of the characters '0'..'9' that reads back
    as the number, without a leading zero unless the number is 0. *)
Theorem uint2str_writes_decimal (n : N) :
  exists str,
    uint2str n = Ok str
    /\ String.list_ascii_of_string str <> []
    /\ Forall is_digit (String.list_ascii_of_string str)
    /\ decimal_value (String.list_ascii_of_string str) = n
    /\ (n <> 0 -> head (String.list_ascii_of_string str) <> Some "0"%char).
Proof.
  exists (decimal n). split; [apply uint2str_spec|]. unfold decimal.
  rewrite String.list_ascii_of_string_of_list_ascii.
  destruct (N.eqb_spec n 0) as [->|Hn].
  - split; [done|]. split; [|split; [reflexivity | done]].
    constructor; [|constructor]. unfold is_digit. vm_compute. split; discriminate.
  - split; [by apply digits_nonempty|]. split; [apply digits_are_digits|].
    split; [apply decimal_value_digits | intros _; by apply digits_head].
Qed.

(** *** When the state-changing functions succeed *)

(** X26. [initiateTransfer] succeeds exactly when the material exists, the
    caller owns it, it is ACTIVE, its latest transfer (if any) is accepted
    and the transfer counter is not exhausted -- whatever the recipient,
    the recipient's organisation and the shipment hash are (none of them is
    checked).  On success the new unaccepted transfer, from the caller to
    the recipient, is appended to the material's transfers under the
    identifier "xfer:<transferCount + 1>", and the material records,
    ownership included, are untouched. *)
Theorem initiateTransfer_succeeds_iff (s : State) (msg_sender now : N) (id : string)
    (toAddress : N) (toOrg : string) (shipmentHash : N) :
  ((exists s' transferId,
       initiateTransfer keccak256 msg_sender now id toAddress toOrg shipmentHash s
       = Ok (s', transferId))
   <-> materialExists_at s id = true
       /\ Material.owner (materials_at s id) = msg_sender
       /\ Material.status (materials_at s id) = ACTIVE
       /\ (forall x, last (getTransfers id s) = Some x -> Transfer.accepted x = true)
       /\ transferCount s < MAX_UINT256)
  /\ (forall s' transferId,
        initiateTransfer keccak256 msg_sender now id toAddress toOrg shipmentHash s
        = Ok (s', transferId) ->
        transferId = "xfer:" +:+ decimal (transferCount s + 1)
        /\ getTransfers id s'
           = getTransfers id s
             ++ [Transfer.mk transferId id msg_sender (Material.ownerOrg (materials_at s id))
                   toAddress toOrg shipmentHash now false]
        /\ materials s' = materials s).
Proof.
  unfold getTransfers. split; [split|].
  - intros (s' & tid & Hok). unfold initiateTransfer in Hok. inv_Ok Hok.
    + apply negb_false_iff in Hc, Hc0, Hc1, Hc2. apply N.eqb_eq in Hc0.
      apply bool_decide_eq_true in Hc1. repeat split; try assumption. congruence.
    + apply negb_false_iff in Hc, Hc0, Hc1. apply N.eqb_eq in Hc0.
      apply bool_decide_eq_true in Hc1. repeat split; try assumption. congruence.
  - intros (Hex & Hown & Hst & Hlast & Hcount).
    unfold initiateTransfer, onlyMaterialOwner, checked_inc.
    apply N.eqb_eq in Hown. apply N.ltb_lt in Hcount.
    rewrite Hex, Hown, Hst, Hcount. cbn [negb bind revert_if].
    rewrite bool_decide_eq_true_2 by reflexivity. cbn [negb bind revert_if].
    destruct (last (materialTransfers_at s id)) as [x|] eqn:Hx.
    + rewrite (Hlast x eq_refl). cbn [negb bind revert_if]. rewrite bind_uint2str. by eauto.
    + cbn [bind]. rewrite bind_uint2str. by eauto.
  - intros s' tid Hok. unfold initiateTransfer in Hok.
    inv_Ok Hok; subst; unfold materialTransfers_at; simpl_state;
      rewrite lookup_insert_eq; by repeat split.
Qed.

(** X27. A quarantine set by an authority does not bind the owner: after
    a successful [setStatusByAuthority] with QUARANTINED, the owner's
    [setStatusByOwner] with ACTIVE succeeds and the material is ACTIVE
    again. *)
Theorem owner_can_lift_authority_quarantine (s s1 : State) (authority now now' : N)
    (id : string) (reasonHash reasonHash' : N) :
  setStatusByAuthority keccak256 authority now id QUARANTINED reasonHash s = Ok s1 ->
  Material.status (materials_at s1 id) = QUARANTINED
  /\ exists s2,
      setStatusByOwner keccak256 (Material.owner (materials_at s id)) now' id ACTIVE
        reasonHash' s1 = Ok s2
      /\ Material.status (materials_at s2 id) = ACTIVE
      /\ Material.owner (materials_at s2 id) = Material.owner (materials_at s id).
Proof.
  intros Hq. unfold setStatusByAuthority in Hq. inv_Ok Hq. subst s1.
  apply negb_false_iff in Hc.
  unfold setStatusByOwner, onlyMaterialOwner.
  unfold materials_at, materialExists_at in *. simpl_state.
  rewrite !lookup_insert_eq. simpl. split; [reflexivity|].
  rewrite Hc, N.eqb_refl. cbn [negb bind revert_if].
  eexists. split; [reflexivity|]. simpl_state. rewrite lookup_insert_eq. by split.
Qed.

(** X28. Who may call [setStatusByAuthority]: on an existing material the
    call succeeds exactly for the admin and for a caller who is approved,
    QC-capable and has revocation timestamp 0.  The right follows the
    issuer table: once the admin has revoked an issuer other than itself
    that issuer's call reverts with NotAuthorizedForStatus, and an issuer
    just authorized with the QC capability can call it. *)
Theorem status_authority_follows_issuer_table (s : State) (msg_sender now : N) (id : string)
    (newStatus : MaterialStatus) (reasonHash : N) :
  materialExists_at s id = true ->
  ((exists s', setStatusByAuthority keccak256 msg_sender now id newStatus reasonHash s = Ok s')
   <-> msg_sender = admin s
       \/ (IssuerPermission.isApproved (issuerPermissions_at s msg_sender) = true
           /\ IssuerPermission.canIssueQC (issuerPermissions_at s msg_sender) = true
           /\ issuerRevokedAt_at s msg_sender = 0))
  /\ (forall admin_sender now0 s0,
        revokeIssuer admin_sender now0 msg_sender s = Ok s0 -> msg_sender <> admin s ->
        setStatusByAuthority keccak256 msg_sender now id newStatus reasonHash s0
        = Revert NotAuthorizedForStatus)
  /\ (forall admin_sender canIdentity canUsageRights s0,
        authorizeIssuer admin_sender msg_sender canIdentity true canUsageRights s = Ok s0 ->
        exists s', setStatusByAuthority keccak256 msg_sender now id newStatus reasonHash s0
                   = Ok s').
Proof.
  intros Hex. split; [split|split].
  - intros (s' & Hok). unfold setStatusByAuthority in Hok. inv_Ok Hok.
    apply negb_false_iff, orb_true_iff in Hc0 as [Hadm | Hiss].
    + left. by apply N.eqb_eq.
    + right. apply andb_true_iff in Hiss as [Hiss Hrev]. apply andb_true_iff in Hiss as [Happ Hqc].
      apply N.eqb_eq in Hrev. by repeat split.
  - intros Hauth. unfold setStatusByAuthority, materialMustExist. rewrite Hex.
    cbn [negb bind revert_if].
    assert (Hok : (msg_sender =? admin s)
                  || IssuerPermission.isApproved (issuerPermissions_at s msg_sender)
                     && IssuerPermission.canIssueQC (issuerPermissions_at s msg_sender)
                     && (issuerRevokedAt_at s msg_sender =? 0) = true).
    { destruct Hauth as [-> | (-> & -> & ->)]; [by rewrite N.eqb_refl | apply orb_true_r]. }
    rewrite Hok. cbn [negb bind revert_if]. by eauto.
  - intros admin_sender now0 s0 Hrev Hne. unfold revokeIssuer in Hrev. inv_Ok Hrev. subst s0.
    unfold setStatusByAuthority, materialMustExist, materialExists_at, issuerPermissions_at,
      issuerRevokedAt_at in *. simpl_state. rewrite Hex, !lookup_insert_eq.
    apply N.eqb_neq in Hne. rewrite Hne. reflexivity.
  - intros admin_sender ci cu s0 Hauth. unfold authorizeIssuer in Hauth. inv_Ok Hauth. subst s0.
    unfold setStatusByAuthority, materialMustExist, materialExists_at, issuerPermissions_at,
      issuerRevokedAt_at in *. simpl_state. rewrite Hex, !lookup_insert_eq. simpl.
    rewrite orb_true_r. cbn [negb bind revert_if]. by eauto.
Qed.

(** X29. [issueCredential] succeeds exactly when the caller is approved
    with revocation timestamp 0 and holds the capability for the
    credential type, the material exists, both hashes are non-zero,
    [validUntil] is 0 or later than the block timestamp, and the
    credential counter is not exhausted. *)
Theorem issueCredential_succeeds_iff (s : State) (msg_sender now : N)
    (materialId : string) (credType : CredentialType) (commitmentHash validUntil : N)
    (artifactCid : string) (artifactHash : N) (issuerId : string) :
  (exists s' credentialId,
      issueCredential keccak256 msg_sender now materialId credType commitmentHash validUntil
        artifactCid artifactHash issuerId s = Ok (s', credentialId))
  <-> IssuerPermission.isApproved (issuerPermissions_at s msg_sender) = true
      /\ issuerRevokedAt_at s msg_sender = 0
      /\ has_capability (issuerPermissions_at s msg_sender) credType = true
      /\ materialExists_at s materialId = true
      /\ commitmentHash <> 0
      /\ artifactHash <> 0
      /\ (validUntil = 0 \/ now < validUntil)
      /\ credentialCount s < MAX_UINT256.
Proof.
  split.
  - intros (s' & cid & Hok). unfold issueCredential in Hok.
    inv_Ok Hok;
      apply negb_false_iff in Hc, Hc0, Hc1, Hc5;
      apply N.eqb_eq in Hc0; apply N.eqb_neq in Hc2, Hc3;
      (assert (validUntil = 0 \/ now < validUntil)
        by (destruct (N.eqb_spec validUntil 0); [by left|];
            destruct (N.leb_spec validUntil now); [discriminate | by right]));
      by repeat split.
  - intros (Happ & Hrev & Hcap & Hex & Hch & Hah & Hvu & Hcount).
    unfold issueCredential, onlyApprovedIssuer, materialMustExist, checked_inc.
    apply N.eqb_neq in Hch, Hah. apply N.ltb_lt in Hcount.
    rewrite Happ, Hrev, Hex, Hch, Hah, Hcount. cbn [negb N.eqb bind revert_if].
    assert (Hv : negb (validUntil =? 0) && (validUntil <=? now) = false).
    { destruct Hvu as [-> | Hlt]; [reflexivity|]. apply N.leb_gt in Hlt. rewrite Hlt.
      apply andb_false_r. }
    rewrite Hv. cbn [bind revert_if].
    destruct credType; simpl in Hcap; rewrite Hcap; cbn [negb bind revert_if];
      rewrite bind_uint2str; by eauto.
Qed.

Lemma evolves_transact (s s1 : State) (msg_sender now : N) (c : Call) :
  evolves keccak256 s s1 -> evolves keccak256 s (transact keccak256 msg_sender now c s1).
Proof.
  intros Hev. unfold transact.
  destruct (execute keccak256 msg_sender now c s1) eqn:Hex; [|assumption].
  by eapply evolves_call.
Qed.

End Proofs.

(** ** The claims on a concrete chain *)

Lemma demo_reachable_on_chain (s : State) (msg_sender now : N) (c : Call) :
  reachable_on_chain demo_keccak256 s -> 0 < now ->
  reachable_on_chain demo_keccak256 (Demo.tx msg_sender now c s).
Proof. apply reachable_transact. Qed.

Lemma demo_happy_on_chain : reachable_on_chain demo_keccak256 Demo.happy.
Proof.
  repeat (apply demo_reachable_on_chain; [|reflexivity]). apply reachable_deploy.
Qed.

Lemma demo_happy_passes : verifyMaterialAt Demo.m1 3000 Demo.happy = Ok (true, []).
Proof. vm_compute. reflexivity. Qed.

(** On [Demo.newer_qc] the QC issued at 1004 is valid until 9000, the QC
    issued at 1100 ran out at 2000, and at time 3000 verification fails
    with QC_EXPIRED. *)
Lemma latest_qc_expired_not_bypassed_witness :
  (exists older,
      getCredentials Demo.m1 Demo.newer_qc !! 1%nat = Some older
      /\ Credential.credType older = QC_MYCO /\ Credential.revoked older = false
      /\ 3000 <= Credential.validUntil older)
  /\ exists reasons,
      verifyMaterialAt Demo.m1 3000 Demo.newer_qc = Ok (false, reasons)
      /\ "QC_EXPIRED"%string ∈ reasons.
Proof.
  split.
  - eexists. split; [vm_compute; reflexivity|]. repeat split. vm_compute. discriminate.
  - apply (latest_qc_expired_not_bypassed demo_keccak256 Demo.newer_qc Demo.m1 3000 2%nat
             (Credential.mk "cred:3" Demo.m1 QC_MYCO 15 Demo.qcLabIssuer "QC" 1100 2000
                "s3://qc2" 16 false)).
    + apply demo_reachable_on_chain; [exact demo_happy_on_chain | reflexivity].
    + vm_compute. reflexivity.
    + vm_compute. reflexivity.
    + reflexivity.
    + reflexivity.
    + intros j c' Hj Hne Hty Hrev.
      destruct j as [|[|[|j]]]; vm_compute in Hj; try discriminate Hj;
        try (exfalso; apply Hne; reflexivity);
        injection Hj as <-; try discriminate Hty; reflexivity.
    + reflexivity.
    + vm_compute. reflexivity.
Defined.

Lemma demo_reachable (s : State) (msg_sender now : N) (c : Call) :
  reachable demo_keccak256 s -> reachable demo_keccak256 (Demo.tx msg_sender now c s).
Proof. intros Hs. by apply reachable_transact. Qed.

Lemma demo_happy_reachable : reachable demo_keccak256 Demo.happy.
Proof. apply reachable_on_chain_reachable, demo_happy_on_chain. Qed.

(** C2 fails on the code.  The material of [Demo.material_revoked] is REVOKED; the admin's
    [setStatusByAuthority] with ACTIVE succeeds on it and the material is
    ACTIVE afterwards. *)
Theorem revoked_material_reinstated_by_authority :
  reachable demo_keccak256 Demo.material_revoked
  /\ Material.status (materials_at Demo.material_revoked Demo.m1) = REVOKED
  /\ setStatusByAuthority demo_keccak256 Demo.deployer 1300 Demo.m1 ACTIVE 22
       Demo.material_revoked = Ok Demo.reinstated
  /\ Material.status (materials_at Demo.reinstated Demo.m1) = ACTIVE.
Proof.
  split; [apply demo_reachable, demo_happy_reachable|].
  repeat split; vm_compute; reflexivity.
Qed.

(** C3 fails on the code.  In [Demo.open_ended_qc] the latest QC of the
    material was issued at 1100 with [validUntil = 0] by an issuer that was
    never revoked; verification at time 3000 reports QC_EXPIRED. *)
Theorem open_ended_qc_reported_expired :
  reachable demo_keccak256 Demo.open_ended_qc
  /\ getCredentials Demo.m1 Demo.open_ended_qc !! 2%nat
     = Some (Credential.mk "cred:3" Demo.m1 QC_MYCO 15 Demo.qcLabIssuer "QC" 1100 0
               "s3://qc2" 16 false)
  /\ issuerRevokedAt_at Demo.open_ended_qc Demo.qcLabIssuer = 0
  /\ verifyMaterialAt Demo.m1 3000 Demo.open_ended_qc = Ok (false, ["QC_EXPIRED"%string]).
Proof.
  split; [apply demo_reachable, demo_happy_reachable|].
  repeat split; vm_compute; reflexivity.
Qed.

(** C4 fails on the code in its last part.  After [revokeIssuer] the
    issuer's [issueCredential] reverts with NotApprovedIssuer, not with
    IssuerRevoked: the revocation clears [isApproved], and the modifier
    tests approval before it looks at the revocation timestamp. *)
Theorem revoked_issuer_gets_NotApprovedIssuer :
  revokeIssuer Demo.deployer 1200 Demo.qcLabIssuer Demo.happy = Ok Demo.qc_lab_revoked
  /\ issuerRevokedAt_at Demo.qc_lab_revoked Demo.qcLabIssuer = 1200
  /\ issueCredential demo_keccak256 Demo.qcLabIssuer 1300 Demo.m1 QC_MYCO 17 9000
       "s3://qc3" 18 "QC" Demo.qc_lab_revoked = Revert NotApprovedIssuer.
Proof. repeat split; vm_compute; reflexivity. Qed.

(** [Demo.in_transit] has its one transfer pending, and a second
    [initiateTransfer] by the owner is refused. *)
Lemma single_pending_transfer_witness :
  pending_count (materialTransfers_at Demo.in_transit Demo.m1) = 1%nat
  /\ initiateTransfer demo_keccak256 Demo.labA 1300 Demo.m1 Demo.labB "LabB_MSP" 32
       Demo.in_transit = Revert PendingTransferExists.
Proof.
  assert (Hreach : reachable demo_keccak256 Demo.in_transit)
    by apply demo_reachable, demo_happy_reachable.
  destruct (single_pending_transfer demo_keccak256 Demo.in_transit Demo.m1 Hreach)
    as (Hcount & Hlast & Hinit & Hacc).
  split; [vm_compute; reflexivity|].
  rewrite (Hinit (Transfer.mk "xfer:1" Demo.m1 Demo.labA "LabA_MSP" Demo.labB "LabB_MSP" 31
                    1200 false));
    vm_compute; reflexivity.
Defined.

(** The latest transfer of the material is unaccepted and the caller is
    not its owner: the ownership modifier answers first. *)
Lemma single_pending_transfer_counterexample :
  reachable demo_keccak256 Demo.in_transit
  /\ (exists x, last (materialTransfers_at Demo.in_transit Demo.m1) = Some x
                 /\ Transfer.accepted x = false)
  /\ initiateTransfer demo_keccak256 Demo.labB 1300 Demo.m1 Demo.labA "LabA_MSP" 32
       Demo.in_transit = Revert NotMaterialOwner
  /\ initiateTransfer demo_keccak256 Demo.labB 1300 Demo.m1 Demo.labA "LabA_MSP" 32
       Demo.in_transit <> Revert PendingTransferExists.
Proof.
  split; [apply demo_reachable, demo_happy_reachable|].
  split; [eexists; split; vm_compute; reflexivity|].
  split; [vm_compute; reflexivity|]. vm_compute. discriminate.
Qed.

(** Lab B does not own the material: the ownership modifier answers first. *)
Lemma owner_cannot_revoke_counterexample :
  Material.owner (materials_at Demo.happy Demo.m1) = Demo.labA
  /\ setStatusByOwner demo_keccak256 Demo.labB 2000 Demo.m1 REVOKED 9 Demo.happy
     = Revert NotMaterialOwner
  /\ setStatusByOwner demo_keccak256 Demo.labB 2000 Demo.m1 REVOKED 9 Demo.happy
     <> Revert NotAuthorizedForStatus.
Proof.
  split; [vm_compute; reflexivity|]. split; [vm_compute; reflexivity|].
  vm_compute. discriminate.
Qed.

(** [authorizeIssuer] succeeds and no history entry is appended. *)
Lemma history_effect_of_calls_counterexample :
  exists s',
    execute demo_keccak256 Demo.deployer 1000
      (AuthorizeIssuer Demo.repositoryIssuer true false true) Demo.deployed = Ok s'
    /\ history_total s' = history_total Demo.deployed
    /\ history_total s' <> S (history_total Demo.deployed).
Proof.
  eexists. split; [vm_compute; reflexivity|].
  split; [vm_compute; reflexivity|]. vm_compute. discriminate.
Qed.

(** The repository issuer is approved, not revoked and has no QC
    capability; on an absent material the error is MaterialNotFound. *)
Lemma capability_checked_after_inputs_counterexample :
  IssuerPermission.isApproved (issuerPermissions_at Demo.happy Demo.repositoryIssuer) = true
  /\ issuerRevokedAt_at Demo.happy Demo.repositoryIssuer = 0
  /\ has_capability (issuerPermissions_at Demo.happy Demo.repositoryIssuer) QC_MYCO = false
  /\ materialExists_at Demo.happy "bio:cell_line:99" = false
  /\ issueCredential demo_keccak256 Demo.repositoryIssuer 2000 "bio:cell_line:99" QC_MYCO
       17 9000 "s3://qc3" 18 "Repo" Demo.happy = Revert MaterialNotFound
  /\ issueCredential demo_keccak256 Demo.repositoryIssuer 2000 "bio:cell_line:99" QC_MYCO
       17 9000 "s3://qc3" 18 "Repo" Demo.happy <> Revert NotAuthorizedForCredentialType.
Proof.
  do 4 (split; [vm_compute; reflexivity|]). split; [vm_compute; reflexivity|].
  vm_compute. discriminate.
Qed.

(** The repository issuer asks for a QC credential on an existing material
    with good inputs. *)
Lemma capability_checked_after_inputs_witness :
  issueCredential demo_keccak256 Demo.repositoryIssuer 2000 Demo.m1 QC_MYCO
    17 9000 "s3://qc3" 18 "Repo" Demo.happy = Revert NotAuthorizedForCredentialType.
Proof.
  rewrite (capability_checked_after_inputs demo_keccak256 Demo.happy Demo.repositoryIssuer
             2000 Demo.m1 QC_MYCO 17 9000 "s3://qc3" 18 "Repo");
    vm_compute; reflexivity.
Defined.

(** A material revoked while in transit is still handed over. *)
Lemma accept_transfer_ignores_status_witness :
  Material.status (materials_at Demo.revoked_in_transit Demo.m1) = REVOKED
  /\ exists s',
      acceptTransfer demo_keccak256 Demo.labB 1400 Demo.m1 Demo.revoked_in_transit = Ok s'
      /\ Material.owner (materials_at s' Demo.m1) = Demo.labB
      /\ Material.status (materials_at s' Demo.m1) = REVOKED.
Proof.
  assert (Hreach : reachable demo_keccak256 Demo.revoked_in_transit)
    by (do 2 apply demo_reachable; apply demo_happy_reachable).
  destruct (accept_transfer_ignores_status demo_keccak256 Demo.revoked_in_transit Demo.m1
              (Transfer.mk "xfer:1" Demo.m1 Demo.labA "LabA_MSP" Demo.labB "LabB_MSP" 31
                 1200 false) 1400 Hreach)
    as [(s' & Hacc & Hown & Horg & Hst & Hlast) _];
    [vm_compute; reflexivity | reflexivity |].
  split; [vm_compute; reflexivity|].
  exists s'. split; [exact Hacc|]. split; [exact Hown|].
  rewrite Hst. vm_compute. reflexivity.
Defined.

(** With one material registered, a second registration mints a new
    identifier. *)
Lemma minted_ids_are_fresh_witness :
  exists s',
    registerMaterial demo_keccak256 Demo.labB 2000 "CELL_LINE" 78 "LabB_MSP" Demo.happy
      = Ok (s', "bio:cell_line:2"%string)
    /\ materialExists_at Demo.happy "bio:cell_line:2" = false
    /\ materialExists_at s' "bio:cell_line:2" = true.
Proof.
  destruct (minted_ids_are_fresh demo_keccak256 Demo.happy Demo.labB 2000 "CELL_LINE" 78
              "LabB_MSP" demo_happy_reachable) as (_ & Hok & _).
  eexists. split; [vm_compute; reflexivity|].
  match goal with
  | |- ?a = false /\ materialExists_at ?s' _ = true =>
      destruct (Hok s' "bio:cell_line:2"%string) as (H1 & H2 & _)
  end; [vm_compute; reflexivity|].
  split; assumption.
Defined.

(** ** The further properties on the concrete chain *)

Lemma demo_evolves (s s1 : State) (msg_sender now : N) (c : Call) :
  evolves demo_keccak256 s s1 -> evolves demo_keccak256 s (Demo.tx msg_sender now c s1).
Proof. apply evolves_transact. Qed.

(** The history of the first material has three entries; a page of five
    from index 1 holds the last two. *)
Lemma getHistorySlice_page_witness :
  exists page,
    getHistorySlice Demo.m1 1 5 Demo.happy = Ok page /\ N.of_nat (length page) = 2.
Proof.
  destruct (getHistorySlice_page Demo.happy Demo.m1 1 5) as (page & Hpage & Hlen & _).
  - vm_compute. discriminate.
  - exists page. split; [exact Hpage|]. rewrite Hlen. vm_compute. reflexivity.
Defined.

Lemma getHistorySlice_overflow_witness :
  getHistorySlice Demo.m1 1 MAX_UINT256 Demo.happy = Revert Panic.
Proof.
  apply getHistorySlice_overflow; vm_compute; reflexivity.
Defined.

Lemma getHistorySlice_pages_compose_witness :
  exists first second,
    getHistorySlice Demo.m1 0 1 Demo.happy = Ok first
    /\ getHistorySlice Demo.m1 1 2 Demo.happy = Ok second
    /\ getHistorySlice Demo.m1 0 3 Demo.happy = Ok (first ++ second).
Proof.
  apply (getHistorySlice_pages_compose Demo.happy Demo.m1 0 1 2). vm_compute. discriminate.
Defined.

Lemma history_is_append_only_witness :
  getHistoryCount Demo.m1 Demo.registered <= getHistoryCount Demo.m1 Demo.newer_qc.
Proof.
  apply (history_is_append_only demo_keccak256 Demo.registered Demo.newer_qc Demo.m1).
  do 3 apply demo_evolves. apply evolves_refl.
Defined.

Lemma getHistoryAt_bounds_witness :
  (exists h, getHistoryAt Demo.m1 2 Demo.happy = Ok h
             /\ getHistorySlice Demo.m1 2 1 Demo.happy = Ok [h])
  /\ getHistoryAt Demo.m1 MAX_UINT256 Demo.happy = Revert InvalidHistoryIndex
  /\ getHistorySlice Demo.m1 MAX_UINT256 1 Demo.happy = Ok [].
Proof.
  split.
  - destruct (getHistoryAt_bounds Demo.happy Demo.m1 2) as [Hin _].
    destruct Hin as (h & _ & Hat & Hslice); [vm_compute; reflexivity|].
    exists h. split; [exact Hat|]. apply Hslice. vm_compute. discriminate.
  - apply (getHistoryAt_bounds Demo.happy Demo.m1 MAX_UINT256). vm_compute. discriminate.
Defined.

Lemma materialCount_counts_materials_witness :
  N.of_nat (size (dom (materialExists Tour.two_materials))) = 2.
Proof.
  destruct (materialCount_counts_materials demo_keccak256 Tour.two_materials) as [Hcount _].
  - apply demo_reachable, demo_happy_reachable.
  - rewrite Hcount. vm_compute. reflexivity.
Defined.

Lemma unregistered_id_is_empty_witness :
  getMaterial "bio:plasmid:7" Demo.happy = Revert MaterialNotFound
  /\ getHistoryCount "bio:plasmid:7" Demo.happy = 0.
Proof.
  destruct (unregistered_id_is_empty demo_keccak256 Demo.happy "bio:plasmid:7"
              demo_happy_reachable) as [Hempty _].
  destruct Hempty as (Hget & _ & _ & _ & Hcount); [vm_compute; reflexivity|].
  split; assumption.
Defined.

Lemma issueCredential_appends_witness :
  getCredential "cred:3" Demo.happy = Revert CredentialNotFound
  /\ getCredentials Demo.m1 Demo.newer_qc
     = getCredentials Demo.m1 Demo.happy
       ++ [Credential.mk "cred:3" Demo.m1 QC_MYCO 15 Demo.qcLabIssuer "QC" 1100 2000
             "s3://qc2" 16 false].
Proof.
  destruct (issueCredential_appends demo_keccak256 Demo.happy Demo.newer_qc Demo.qcLabIssuer
              1100 Demo.m1 QC_MYCO 15 2000 "s3://qc2" 16 "QC" "cred:3" demo_happy_reachable)
    as (Hbefore & _ & Happ & _); [vm_compute; reflexivity|].
  split; assumption.
Defined.

Lemma listed_credentials_well_formed_witness :
  getCredentialIds Demo.m1 Demo.happy !! 1%nat = Some "cred:2"%string
  /\ NoDup (getCredentialIds Demo.m1 Demo.happy).
Proof.
  destruct (listed_credentials_well_formed demo_keccak256 Demo.happy Demo.m1 1%nat
              (Credential.mk "cred:2" Demo.m1 QC_MYCO 13 Demo.qcLabIssuer "QC" 1004 9000
                 "s3://qc" 14 false) demo_happy_reachable)
    as (Hid & _ & _ & _ & _ & _ & _ & Hnd); [vm_compute; reflexivity|].
  split; assumption.
Defined.

Lemma IssuerRevoked_is_never_raised_witness :
  onlyApprovedIssuer Demo.qcLabIssuer Demo.qc_lab_revoked = Revert NotApprovedIssuer.
Proof.
  destruct (IssuerRevoked_is_never_raised demo_keccak256 Demo.qc_lab_revoked Demo.qcLabIssuer
              1300 Demo.m1 QC_MYCO 17 9000 "s3://qc3" 18 "QC") as (_ & Hmod & _).
  - apply demo_reachable, demo_happy_reachable.
  - rewrite Hmod. vm_compute. reflexivity.
Defined.

Lemma registered_material_starts_unverified_witness :
  verifyMaterialAt Demo.m1 5000 Demo.registered
  = Ok (false, ["MISSING_IDENTITY"%string; "QC_MISSING"%string]).
Proof.
  destruct (registered_material_starts_unverified demo_keccak256 Demo.with_issuers
              Demo.registered Demo.labA 1002 "CELL_LINE" 77 "LabA_MSP" Demo.m1)
    as (_ & _ & _ & _ & Hverify).
  - do 2 apply demo_reachable. apply reachable_deploy.
  - vm_compute. reflexivity.
  - apply Hverify.
Defined.

Lemma only_admin_manages_issuers_witness :
  issuerPermissions Demo.registered = issuerPermissions Demo.with_issuers.
Proof.
  destruct (only_admin_manages_issuers demo_keccak256 Demo.with_issuers Demo.registered
              Demo.labA 1002 (RegisterMaterial "CELL_LINE" 77 "LabA_MSP")) as (_ & Hsame & _).
  - vm_compute. reflexivity.
  - destruct Hsame as [Hperm _]; [vm_compute; discriminate | exact Hperm].
Defined.

Lemma material_identity_is_permanent_witness :
  materialExists_at Demo.revoked_in_transit Demo.m1 = true
  /\ Material.createdAt (materials_at Demo.revoked_in_transit Demo.m1) = 1002.
Proof.
  destruct (material_identity_is_permanent demo_keccak256 Demo.registered
              Demo.revoked_in_transit Demo.m1) as (Hex & _ & _ & _ & Hcreated).
  - do 4 apply demo_evolves. apply evolves_refl.
  - vm_compute. reflexivity.
  - split; [exact Hex|]. rewrite Hcreated. vm_compute. reflexivity.
Defined.

Lemma owner_changes_only_by_acceptance_witness :
  Material.owner (materials_at Demo.in_transit Demo.m1) = Demo.labA
  /\ Material.owner (materials_at Tour.delivered Demo.m1) = Demo.labB.
Proof.
  destruct (owner_changes_only_by_acceptance demo_keccak256 Demo.in_transit Tour.delivered
              Demo.labB 1300 (AcceptTransfer Demo.m1) Demo.m1) as (_ & Hown & _).
  - vm_compute. reflexivity.
  - vm_compute. reflexivity.
  - vm_compute. discriminate.
  - split; [vm_compute; reflexivity | exact Hown].
Defined.

Lemma credentials_are_permanent_witness :
  exists cr', credentials Tour.qc_withdrawn !! "cred:2"%string = Some cr'
              /\ Credential.issuedAt cr' = 1004.
Proof.
  destruct (credentials_are_permanent demo_keccak256 Demo.happy Tour.qc_withdrawn "cred:2"
              (Credential.mk "cred:2" Demo.m1 QC_MYCO 13 Demo.qcLabIssuer "QC" 1004 9000
                 "s3://qc" 14 false) demo_happy_reachable)
    as (cr' & Hcr' & Heq & _).
  - apply demo_evolves, evolves_refl.
  - vm_compute. reflexivity.
  - exists cr'. split; [exact Hcr'|]. rewrite Heq. reflexivity.
Defined.

Lemma revokeCredential_once_witness :
  exists s',
    revokeCredential demo_keccak256 Demo.qcLabIssuer 1200 "cred:2" Demo.happy = Ok s'
    /\ forall now',
        revokeCredential demo_keccak256 Demo.qcLabIssuer now' "cred:2" s'
        = Revert CredentialAlreadyRevoked.
Proof.
  destruct (revokeCredential_once demo_keccak256 Demo.happy Demo.qcLabIssuer 1200 "cred:2")
    as (_ & _ & Hauth).
  specialize (Hauth ltac:(vm_compute; discriminate) ltac:(left; vm_compute; reflexivity)).
  change (Credential.revoked (credentials_at Demo.happy "cred:2")) with false in Hauth.
  destruct Hauth as (s' & Hok & _ & Hagain). exists s'. split; assumption.
Defined.

Lemma verification_passes_iff_witness :
  Material.status (materials_at Demo.happy Demo.m1) = ACTIVE
  /\ forall x, x ∈ getTransfers Demo.m1 Demo.happy -> Transfer.accepted x = true.
Proof.
  destruct (proj1 (verification_passes_iff Demo.happy Demo.m1 3000)) as (Hst & _ & _ & Htr).
  - vm_compute. reflexivity.
  - split; assumption.
Defined.

Lemma verification_monotone_in_time_witness :
  fst (_verifyMaterialAt Demo.m1 2000 Demo.happy) = true.
Proof.
  destruct (verification_monotone_in_time Demo.happy Demo.m1 2000 3000) as [_ Hpass].
  - vm_compute. discriminate.
  - apply Hpass. vm_compute. reflexivity.
Defined.

Lemma usage_rights_do_not_affect_verification_witness :
  _verifyMaterialAt Demo.m1 3000 Tour.with_usage_rights = (true, []).
Proof.
  rewrite (usage_rights_do_not_affect_verification demo_keccak256 Demo.happy
             Tour.with_usage_rights Demo.repositoryIssuer 1100 Demo.m1 41 0 "s3://mta" 42
             "Repo" "cred:3" demo_happy_reachable).
  - vm_compute. reflexivity.
  - vm_compute. reflexivity.
Defined.

Lemma revokeIssuer_spares_earlier_credentials_witness :
  _verifyMaterialAt Demo.m1 3000 Demo.qc_lab_revoked = (true, []).
Proof.
  destruct (revokeIssuer_spares_earlier_credentials Demo.happy Demo.qc_lab_revoked
              Demo.deployer 1200 Demo.qcLabIssuer Demo.m1) as [Hsame _].
  - vm_compute. reflexivity.
  - rewrite Hsame.
    + vm_compute. reflexivity.
    + vm_compute. reflexivity.
    + intros cr Hin Hiss. vm_compute in Hin.
      apply elem_of_cons in Hin as [-> | Hin]; [discriminate Hiss|].
      apply elem_of_cons in Hin as [-> | Hin]; [reflexivity|].
      by apply elem_of_nil in Hin.
Defined.

Lemma transfer_pending_iff_latest_unaccepted_witness :
  "TRANSFER_PENDING"%string ∈ snd (_verifyMaterialAt Demo.m1 3000 Demo.in_transit).
Proof.
  apply (transfer_pending_iff_latest_unaccepted demo_keccak256 Demo.in_transit Demo.m1 3000).
  - apply demo_reachable, demo_happy_reachable.
  - eexists. split; [vm_compute; reflexivity | reflexivity].
Defined.

Lemma transfers_form_a_custody_chain_witness :
  Material.owner (materials_at Tour.delivered Demo.m1) = Demo.labB.
Proof.
  destruct (transfers_form_a_custody_chain demo_keccak256 Tour.delivered Demo.m1) as [_ Hown].
  - do 2 apply demo_reachable. apply demo_happy_reachable.
  - rewrite (Hown (Transfer.mk "xfer:1" Demo.m1 Demo.labA "LabA_MSP" Demo.labB "LabB_MSP" 31
                     1200 true)); [reflexivity | vm_compute; reflexivity].
Defined.

Lemma initiateTransfer_succeeds_iff_witness :
  exists s' transferId,
    initiateTransfer demo_keccak256 Demo.labA 1200 Demo.m1 0 "" 0 Demo.happy
    = Ok (s', transferId).
Proof.
  apply (proj1 (initiateTransfer_succeeds_iff demo_keccak256 Demo.happy Demo.labA 1200 Demo.m1
                  0 "" 0)).
  split; [vm_compute; reflexivity|]. split; [vm_compute; reflexivity|].
  split; [vm_compute; reflexivity|]. split; [|vm_compute; reflexivity].
  intros x Hx. vm_compute in Hx. discriminate Hx.
Defined.

Lemma owner_can_lift_authority_quarantine_witness :
  Material.status (materials_at Tour.quarantined Demo.m1) = QUARANTINED
  /\ exists s2,
      setStatusByOwner demo_keccak256 Demo.labA 1300 Demo.m1 ACTIVE 52 Tour.quarantined = Ok s2
      /\ Material.status (materials_at s2 Demo.m1) = ACTIVE.
Proof.
  destruct (owner_can_lift_authority_quarantine demo_keccak256 Demo.happy Tour.quarantined
              Demo.qcLabIssuer 1200 1300 Demo.m1 51 52) as (Hq & s2 & Hok & Hst & _).
  - vm_compute. reflexivity.
  - split; [exact Hq|]. exists s2. split; [exact Hok | exact Hst].
Defined.

Lemma status_authority_follows_issuer_table_witness :
  setStatusByAuthority demo_keccak256 Demo.qcLabIssuer 1300 Demo.m1 QUARANTINED 51
    Demo.qc_lab_revoked = Revert NotAuthorizedForStatus.
Proof.
  destruct (status_authority_follows_issuer_table demo_keccak256 Demo.happy Demo.qcLabIssuer
              1300 Demo.m1 QUARANTINED 51) as (_ & Hrevoked & _).
  - vm_compute. reflexivity.
  - apply (Hrevoked Demo.deployer 1200 Demo.qc_lab_revoked).
    + vm_compute. reflexivity.
    + vm_compute. discriminate.
Defined.

Lemma issueCredential_succeeds_iff_witness :
  has_capability (issuerPermissions_at Demo.happy Demo.qcLabIssuer) QC_MYCO = true
  /\ materialExists_at Demo.happy Demo.m1 = true.
Proof.
  destruct (proj1 (issueCredential_succeeds_iff demo_keccak256 Demo.happy Demo.qcLabIssuer 1100
                     Demo.m1 QC_MYCO 15 2000 "s3://qc2" 16 "QC"))
    as (_ & _ & Hcap & Hex & _).
  - eexists _, _. vm_compute. reflexivity.
  - split; assumption.
Defined.
